(** * Octavia controller worker (v2): database tasks

    A shallow embedding of
    [octavia/controller/worker/v2/tasks/database_tasks.py]: the
    compensating-transaction tasks that drive provisioning state, the
    cascading status walk and the quota ledger.

    Every task method is a program in a state-and-exception monad over a
    [world]: the persistent store behind the repository adapter, the open
    exclusive-locking sessions, and the trace of repository and session
    calls.  The repository adapter is an interface ([Repository]): the
    theorems about tasks hold for every implementation of it, and a
    reference implementation ([Ref.repository]) is used to run the tasks on
    concrete inputs.

    Conventions of the embedding:
    - a Python exception is an [exn]; side effects performed before an
      exception is raised persist, as in Python;
    - [LOG.debug/info/warning/error] calls write no persistent state and are
      left out;
    - the provider dictionaries passed between tasks are records holding the
      keys the tasks read (a dictionary lacking one of them is ill-formed
      input). *)

From Stdlib Require Import ZArith String List Bool Lia.
From stdpp Require Import base gmap strings list.
Import ListNotations.

(** ** Constants of [octavia.common.constants] used by the tasks *)

(** Provisioning and amphora lifecycle statuses. *)
Inductive status : Type :=
| PENDING_CREATE | PENDING_UPDATE | PENDING_DELETE
| ACTIVE | DELETED | ERROR
| AMPHORA_BOOTING | AMPHORA_ALLOCATED | AMPHORA_READY.

Inductive op_status : Type := ONLINE | OFFLINE.

Inductive amp_role : Type := ROLE_MASTER | ROLE_BACKUP | ROLE_STANDALONE.

(** The two VRRP priorities are constants of a module that is not part of
    this file's source; the tasks are parametric in them. *)
Class Constants : Type := {
  ROLE_MASTER_PRIORITY : Z;
  ROLE_BACKUP_PRIORITY : Z
}.

(** ** Exceptions *)

Inductive exn : Type :=
| NoResultFound            (* sqlalchemy.orm.exc.NoResultFound *)
| UnmappedInstanceError    (* sqlalchemy.orm.exc.UnmappedInstanceError *)
| DBDuplicateEntry         (* oslo_db.exception.DBDuplicateEntry *)
| AttributeError           (* attribute access on None *)
| IndexError
| OtherError (code : nat). (* any other subclass of Exception *)

Inductive outcome (A : Type) : Type :=
| Ok (a : A)
| Raise (e : exn).
Arguments Ok {A} a.
Arguments Raise {A} e.

(** What the workflow engine hands to [revert]: the value [execute]
    returned, or the failure marker ([taskflow.types.failure.Failure]) when
    this task's own [execute] raised. *)
Inductive task_result (A : Type) : Type :=
| Result (a : A)
| Failure (e : exn).
Arguments Result {A} a.
Arguments Failure {A} e.

(** [isinstance(result, failure.Failure)] *)
Definition is_failure {A : Type} (r : task_result A) : bool :=
  match r with
  | Failure _ => true
  | Result _ => false
  end.

(** ** Data models returned by the repositories

    Only the attributes the tasks read are kept. *)

Record Member : Type := {
  member_id_of : string;
  member_enabled : bool
}.

Record HealthMonitor : Type := {
  hm_id_of : string;
  hm_enabled : bool
}.

Record Pool : Type := {
  pool_id_of : string;
  health_monitor : option HealthMonitor;
  members : list Member
}.

Record L7Rule : Type := {
  l7rule_id_of : string;
  l7rule_enabled : bool
}.

Record L7Policy : Type := {
  l7policy_id_of : string;
  l7policy_enabled : bool;
  l7policy_project_id : string;
  l7rules : list L7Rule;
  redirect_pool : option Pool
}.

Record Listener : Type := {
  listener_id_of : string;
  l7policies : list L7Policy;
  default_pool : option Pool
}.

Record Amphora : Type := {
  amphora_id_of : string
}.

Record AmphoraHealth : Type := {
  amphora_health_id_of : string;
  amphora_health_busy : bool
}.

Record LoadBalancer : Type := {
  lb_id_of : string;
  listeners : list Listener;
  amphorae : list Amphora
}.

(** ** The repository adapter *)

Inductive repo_name : Type :=
| amphora_repo | health_mon_repo | listener_repo | loadbalancer_repo
| member_repo | pool_repo | amp_health_repo | l7policy_repo | l7rule_repo.

Definition model_of (r : repo_name) : Type :=
  match r with
  | amphora_repo => Amphora
  | health_mon_repo => HealthMonitor
  | listener_repo => Listener
  | loadbalancer_repo => LoadBalancer
  | member_repo => Member
  | pool_repo => Pool
  | amp_health_repo => AmphoraHealth
  | l7policy_repo => L7Policy
  | l7rule_repo => L7Rule
  end.

(** Resource kinds of the quota ledger ([data_models.X] passed to the quota
    primitives). *)
Inductive resource_kind : Type :=
| KLoadBalancer | KListener | KPool | KMember | KHealthMonitor
| KL7Policy | KL7Rule.

(** A keyword argument of [update]: the column and the value written. *)
Inductive field : Type :=
| provisioning_status (s : status)
| operating_status (o : op_status)
| amp_status (s : status)              (* status=... of an amphora *)
| role (r : option amp_role)
| vrrp_priority (p : option Z)
| compute_id (c : string)
| lb_network_ip (ip : string)
| load_balancer_id (l : option string)
| loadbalancer_id_kw (l : option string)
| busy (b : bool).

(** The calls the tasks make on the repositories. *)
Inductive call : Type :=
| Get (r : repo_name) (id : string)
| Update (r : repo_name) (id : string) (kw : list field)
| Delete (r : repo_name) (id : string)
| ProvStatusActiveIfNotError (listener_id : string)
| DecrementQuota (k : resource_kind) (project_id : string) (quantity : Z)
| CheckQuotaMet (k : resource_kind) (project_id : string).

Definition ret_ty (c : call) : Type :=
  match c with
  | Get r _ => option (model_of r)
  | CheckQuotaMet _ _ => bool
  | _ => unit
  end.

(** The interface the tasks require from the persistence layer: a store,
    what each call does to it (a result or an exception, and the store
    afterwards), and whether committing a working copy fails.  The one law:
    [get] reads and does not write. *)
Class Repository : Type := {
  DB : Type;
  repo : forall c : call, DB -> outcome (ret_ty c) * DB;
  commit_fault : DB -> option exn;
  get_readonly : forall r id d, snd (repo (Get r id) d) = d
}.

(** ** Inputs of the tasks *)

(** A provider dictionary, indexed by the keys of
    [octavia.common.constants] the tasks read. *)
Record dict : Type := {
  ID : string;
  COMPUTE_ID : string;
  LB_NETWORK_IP : string;
  PROJECT_ID : string;
  LOADBALANCER_ID : string;
  LISTENER_ID : string;
  HEALTHMONITOR_ID : string;
  MEMBER_ID : string;
  L7POLICY_ID : string;
  L7RULE_ID : string
}.

(** The result of [CountPoolChildrenForQuota]: [{'HM': n, 'member': m}]. *)
Record pool_child_count : Type := {
  HM : Z;
  member : Z
}.

(** Truth value of an optional string: [None] and the empty string are
    false. *)
Definition truthy (o : option string) : bool :=
  match o with
  | Some s => negb (String.eqb s EmptyString)
  | None => false
  end.

(** ** Sessions and the world *)

Record session : Type := {
  sid : nat;
  autocommit : bool
}.

Inductive event : Type :=
| ECall (s : session) (c : call)
| ECommit (s : session)
| ERollback (s : session).

Section Tasks.

Context {R : Repository} {C : Constants}.

(** Modelled from the spec: the session factory [db_apis.get_session] and
    the sessions it returns (the "locked-session factory with an
    autocommit=False mode offering explicit commit/rollback").  A call made
    through an autocommit session acts on the store at once.  A call made
    through a session opened with [autocommit=False] acts on that session's
    working copy, which starts from the store at the session's first call;
    [commit] installs the working copy as the store, [rollback] drops it. *)
Record world : Type := {
  store : DB;
  txns : gmap nat DB;
  next_sid : nat;
  log : list event
}.

Definition M (A : Type) : Type := world -> outcome A * world.

Definition ret {A : Type} (a : A) : M A := fun w => (Ok a, w).

Definition raise {A : Type} (e : exn) : M A := fun w => (Raise e, w).

Definition bind {A B : Type} (m : M A) (k : A -> M B) : M B :=
  fun w =>
    match m w with
    | (Ok a, w') => k a w'
    | (Raise e, w') => (Raise e, w')
    end.

(** [try: m except Exception as e: h e] *)
Definition try_except {A : Type} (m : M A) (h : exn -> M A) : M A :=
  fun w =>
    match m w with
    | (Ok a, w') => (Ok a, w')
    | (Raise e, w') => h e w'
    end.

#[local] Instance M_ret : MRet M := @ret.
#[local] Instance M_bind : MBind M := fun A B k m => bind m k.
#[local] Instance M_throw : MThrow exn M := @raise.

(** [for x in l: body x] *)
Fixpoint for_each {A : Type} (l : list A) (body : A -> M unit) : M unit :=
  match l with
  | [] => ret tt
  | x :: l' => body x ;; for_each l' body
  end.

(** [range(n)]: empty when [n] is not positive. *)
Definition range (n : Z) : list nat := seq 0 (Z.to_nat n).

Definition add_event (e : event) (w : world) : world :=
  {| store := store w; txns := txns w; next_sid := next_sid w;
     log := log w ++ [e] |}.

(** [db_apis.get_session(autocommit=ac)]: a fresh session handle. *)
Definition get_session (ac : bool) : M session :=
  fun w =>
    (Ok {| sid := next_sid w; autocommit := ac |},
     {| store := store w; txns := txns w; next_sid := S (next_sid w);
        log := log w |}).

(** The state a call made through session [s] acts on. *)
Definition working (s : session) (w : world) : DB :=
  if autocommit s then store w else default (store w) (txns w !! sid s).

(** [self.<repo>.<method>(session, ...)] *)
Definition repo_call (s : session) (c : call) : M (ret_ty c) :=
  fun w =>
    let (r, db') := repo c (working s w) in
    (r,
     if autocommit s then
       {| store := db'; txns := txns w; next_sid := next_sid w;
          log := log w ++ [ECall s c] |}
     else
       {| store := store w; txns := <[sid s := db']> (txns w);
          next_sid := next_sid w; log := log w ++ [ECall s c] |}).

(** [session.commit()] *)
Definition commit (s : session) : M unit :=
  fun w =>
    match commit_fault (working s w) with
    | Some e => (Raise e, add_event (ECommit s) w)
    | None =>
        (Ok tt,
         {| store := working s w; txns := delete (sid s) (txns w);
            next_sid := next_sid w; log := log w ++ [ECommit s] |})
    end.

(** [session.rollback()] *)
Definition rollback (s : session) : M unit :=
  fun w =>
    (Ok tt,
     {| store := store w; txns := delete (sid s) (txns w);
        next_sid := next_sid w; log := log w ++ [ERollback s] |}).

Definition repo_get (r : repo_name) (s : session) (id : string)
  : M (option (model_of r)) :=
  repo_call s (Get r id).

Definition repo_update (r : repo_name) (s : session) (id : string)
    (kw : list field) : M unit :=
  repo_call s (Update r id kw).

Definition repo_delete (r : repo_name) (s : session) (id : string) : M unit :=
  repo_call s (Delete r id).

(** [self.repos.decrement_quota(lock_session, _class, project_id,
    quantity=1)] *)
Definition decrement_quota (lock_session : session) (k : resource_kind)
    (project_id : string) (quantity : Z) : M unit :=
  repo_call lock_session (DecrementQuota k project_id quantity).

(** [self.repos.check_quota_met(session, lock_session, _class, project_id)]:
    the count is taken in [lock_session]. *)
Definition check_quota_met (s lock_session : session) (k : resource_kind)
    (project_id : string) : M bool :=
  repo_call lock_session (CheckQuotaMet k project_id).

(** ** Collaborators outside this module *)

(** Modelled from the spec: [provider_utils.db_HM_to_provider_HM(hm).to_dict()],
    the provider dictionary of a stored health monitor; it carries the
    monitor's id under [HEALTHMONITOR_ID].  Converting [None] fails on the
    attribute access. *)
Definition db_HM_to_provider_HM (hm : option HealthMonitor) : M dict :=
  match hm with
  | Some h =>
      ret {| ID := EmptyString; COMPUTE_ID := EmptyString;
             LB_NETWORK_IP := EmptyString; PROJECT_ID := EmptyString;
             LOADBALANCER_ID := EmptyString; LISTENER_ID := EmptyString;
             HEALTHMONITOR_ID := hm_id_of h; MEMBER_ID := EmptyString;
             L7POLICY_ID := EmptyString; L7RULE_ID := EmptyString |}
  | None => raise AttributeError
  end.

(** Modelled from the spec: the [TaskUtils.mark_*_error] helpers of
    [octavia.controller.worker.task_utils].  They are compensation steps:
    the entity is moved to ERROR and "any exception during compensation is
    caught, logged, and swallowed". *)
Definition mark_amphora_status_error (amphora_id : string) : M unit :=
  try_except
    (s ← get_session true;
     repo_update amphora_repo s amphora_id [amp_status ERROR])
    (fun _ => ret tt).

Definition mark_loadbalancer_prov_status_error (loadbalancer_id : string)
  : M unit :=
  try_except
    (s ← get_session true;
     repo_update loadbalancer_repo s loadbalancer_id
       [provisioning_status ERROR])
    (fun _ => ret tt).

Definition mark_listener_prov_status_error (listener_id : string) : M unit :=
  try_except
    (s ← get_session true;
     repo_update listener_repo s listener_id [provisioning_status ERROR])
    (fun _ => ret tt).

(** ** BaseDatabaseTask *)

Definition _delete_from_amp_health (amphora_id : string) : M unit :=
  try_except
    (s ← get_session true;
     repo_delete amp_health_repo s amphora_id)
    (fun e =>
       match e with
       | NoResultFound | UnmappedInstanceError => ret tt
       | _ => raise e
       end).

Definition _mark_amp_health_busy (amphora_id : string) : M unit :=
  try_except
    (s ← get_session true;
     repo_update amp_health_repo s amphora_id [busy true])
    (fun e =>
       match e with
       | NoResultFound | UnmappedInstanceError => ret tt
       | _ => raise e
       end).

(** ** CreateAmphoraInDB *)

Definition CreateAmphoraInDB_revert (result : task_result string) : M unit :=
  match result with
  | Failure _ => ret tt
  | Result amp_id =>
      try_except
        (s ← get_session true;
         repo_delete amphora_repo s amp_id)
        (fun _ => ret tt)
  end.

(** ** The delete tasks

    The [revert] methods of these tasks take the task's inputs and
    [*args, **kwargs]; the engine passes the result of [execute] among the
    keyword arguments, where it is not looked at. *)

Definition DeleteHealthMonitorInDB_execute (health_mon : dict) : M unit :=
  try_except
    (s ← get_session true;
     repo_delete health_mon_repo s (HEALTHMONITOR_ID health_mon))
    (fun e =>
       match e with
       | NoResultFound => ret tt
       | _ => raise e
       end).

Definition DeleteHealthMonitorInDB_revert (health_mon : dict)
    (result : task_result unit) : M unit :=
  s ← get_session true;
  repo_update health_mon_repo s (HEALTHMONITOR_ID health_mon)
    [provisioning_status ERROR].

Definition DeleteHealthMonitorInDBByPool_execute (pool_id : string)
  : M unit :=
  s ← get_session true;
  db_pool ← repo_get pool_repo s pool_id;
  match db_pool with
  | None => raise AttributeError
  | Some db_pool =>
      provider_hm ← db_HM_to_provider_HM (health_monitor db_pool);
      DeleteHealthMonitorInDB_execute provider_hm
  end.

Definition DeleteHealthMonitorInDBByPool_revert (pool_id : string)
    (result : task_result unit) : M unit :=
  s ← get_session true;
  db_pool ← repo_get pool_repo s pool_id;
  match db_pool with
  | None => raise AttributeError
  | Some db_pool =>
      provider_hm ← db_HM_to_provider_HM (health_monitor db_pool);
      DeleteHealthMonitorInDB_revert provider_hm result
  end.

Definition DeleteMemberInDB_execute (member : dict) : M unit :=
  s ← get_session true;
  repo_delete member_repo s (MEMBER_ID member).

Definition DeleteMemberInDB_revert (member : dict)
    (result : task_result unit) : M unit :=
  try_except
    (s ← get_session true;
     repo_update member_repo s (MEMBER_ID member)
       [provisioning_status ERROR])
    (fun _ => ret tt).

Definition DeleteListenerInDB_execute (listener : dict) : M unit :=
  s ← get_session true;
  repo_delete listener_repo s (LISTENER_ID listener).

Definition DeleteListenerInDB_revert (listener : dict)
    (result : task_result unit) : M unit :=
  ret tt.

Definition DeletePoolInDB_execute (pool_id : string) : M unit :=
  s ← get_session true;
  repo_delete pool_repo s pool_id.

Definition DeletePoolInDB_revert (pool_id : string)
    (result : task_result unit) : M unit :=
  try_except
    (s ← get_session true;
     repo_update pool_repo s pool_id [provisioning_status ERROR])
    (fun _ => ret tt).

Definition DeleteL7PolicyInDB_execute (l7policy : dict) : M unit :=
  s ← get_session true;
  repo_delete l7policy_repo s (L7POLICY_ID l7policy).

Definition DeleteL7PolicyInDB_revert (l7policy : dict)
    (result : task_result unit) : M unit :=
  try_except
    (s ← get_session true;
     repo_update l7policy_repo s (L7POLICY_ID l7policy)
       [provisioning_status ERROR])
    (fun _ => ret tt).

Definition DeleteL7RuleInDB_execute (l7rule : dict) : M unit :=
  s ← get_session true;
  repo_delete l7rule_repo s (L7RULE_ID l7rule).

Definition DeleteL7RuleInDB_revert (l7rule : dict)
    (result : task_result unit) : M unit :=
  try_except
    (s ← get_session true;
     repo_update l7rule_repo s (L7RULE_ID l7rule)
       [provisioning_status ERROR])
    (fun _ => ret tt).

(** ** Amphora role and priority *)

Definition _MarkAmphoraRoleAndPriorityInDB__execute (amphora_id : string)
    (amp_role : amp_role) (priority : option Z) : M unit :=
  s ← get_session true;
  repo_update amphora_repo s amphora_id
    [role (Some amp_role); vrrp_priority priority].

Definition _MarkAmphoraRoleAndPriorityInDB__revert
    (result : task_result unit) (amphora_id : string) : M unit :=
  if is_failure result then ret tt
  else
    try_except
      (s ← get_session true;
       repo_update amphora_repo s amphora_id
         [role None; vrrp_priority None])
      (fun _ => ret tt).

Definition MarkAmphoraMasterInDB_execute (amphora : dict) : M unit :=
  _MarkAmphoraRoleAndPriorityInDB__execute (ID amphora) ROLE_MASTER
    (Some ROLE_MASTER_PRIORITY).

Definition MarkAmphoraMasterInDB_revert (result : task_result unit)
    (amphora : dict) : M unit :=
  _MarkAmphoraRoleAndPriorityInDB__revert result (ID amphora).

Definition MarkAmphoraBackupInDB_execute (amphora : dict) : M unit :=
  _MarkAmphoraRoleAndPriorityInDB__execute (ID amphora) ROLE_BACKUP
    (Some ROLE_BACKUP_PRIORITY).

Definition MarkAmphoraBackupInDB_revert (result : task_result unit)
    (amphora : dict) : M unit :=
  _MarkAmphoraRoleAndPriorityInDB__revert result (ID amphora).

Definition MarkAmphoraStandAloneInDB_execute (amphora : dict) : M unit :=
  _MarkAmphoraRoleAndPriorityInDB__execute (ID amphora) ROLE_STANDALONE None.

Definition MarkAmphoraStandAloneInDB_revert (result : task_result unit)
    (amphora : dict) : M unit :=
  _MarkAmphoraRoleAndPriorityInDB__revert result (ID amphora).

(** ** Amphora lifecycle *)

Definition MarkAmphoraAllocatedInDB_execute (amphora : dict)
    (loadbalancer_id : string) : M unit :=
  s ← get_session true;
  repo_update amphora_repo s (ID amphora)
    [amp_status AMPHORA_ALLOCATED; compute_id (COMPUTE_ID amphora);
     lb_network_ip (LB_NETWORK_IP amphora);
     load_balancer_id (Some loadbalancer_id)].

Definition MarkAmphoraAllocatedInDB_revert (result : task_result unit)
    (amphora : dict) (loadbalancer_id : string) : M unit :=
  if is_failure result then ret tt
  else mark_amphora_status_error (ID amphora).

Definition MarkAmphoraBootingInDB_execute (amphora_id compute : string)
  : M unit :=
  s ← get_session true;
  repo_update amphora_repo s amphora_id
    [amp_status AMPHORA_BOOTING; compute_id compute].

Definition MarkAmphoraBootingInDB_revert (result : task_result unit)
    (amphora_id compute : string) : M unit :=
  if is_failure result then ret tt
  else
    try_except
      (s ← get_session true;
       repo_update amphora_repo s amphora_id
         [amp_status ERROR; compute_id compute])
      (fun _ => ret tt).

(** ** Amphora health coordination *)

Definition DisableAmphoraHealthMonitoring_execute (amphora : dict) : M unit :=
  _delete_from_amp_health (ID amphora).

Definition MarkAmphoraHealthBusy_execute (amphora : dict) : M unit :=
  _mark_amp_health_busy (ID amphora).

(** ** MarkLBActiveInDB and the cascading status walk *)

Definition _mark_member_status (m : Member) (st : status) : M unit :=
  s ← get_session true;
  repo_update member_repo s (member_id_of m) [provisioning_status st].

Definition _mark_hm_status (hm : HealthMonitor) (st : status) : M unit :=
  s ← get_session true;
  repo_update health_mon_repo s (hm_id_of hm) [provisioning_status st].

Definition _mark_pool_status (pool : Pool) (st : status) : M unit :=
  s ← get_session true;
  repo_update pool_repo s (pool_id_of pool) [provisioning_status st];;
  match health_monitor pool with
  | Some hm => _mark_hm_status hm st
  | None => ret tt
  end;;
  for_each (members pool) (fun m => _mark_member_status m st).

Definition _mark_l7rule_status (l7rule : L7Rule) (st : status) : M unit :=
  s ← get_session true;
  repo_update l7rule_repo s (l7rule_id_of l7rule) [provisioning_status st].

Definition _mark_l7policy_status (l7policy : L7Policy) (st : status)
  : M unit :=
  s ← get_session true;
  repo_update l7policy_repo s (l7policy_id_of l7policy)
    [provisioning_status st];;
  for_each (l7rules l7policy) (fun r => _mark_l7rule_status r st);;
  match redirect_pool l7policy with
  | Some pool => _mark_pool_status pool st
  | None => ret tt
  end.

Definition _mark_listener_status (listener : Listener) (st : status)
  : M unit :=
  s ← get_session true;
  repo_update listener_repo s (listener_id_of listener)
    [provisioning_status st];;
  for_each (l7policies listener) (fun p => _mark_l7policy_status p st);;
  match default_pool listener with
  | Some pool => _mark_pool_status pool st
  | None => ret tt
  end.

Definition MarkLBActiveInDB_execute (mark_subobjects : bool)
    (loadbalancer : dict) : M unit :=
  (if mark_subobjects then
     s ← get_session true;
     db_lb ← repo_get loadbalancer_repo s (LOADBALANCER_ID loadbalancer);
     match db_lb with
     | None => raise AttributeError
     | Some db_lb =>
         for_each (listeners db_lb)
           (fun listener => _mark_listener_status listener ACTIVE)
     end
   else ret tt);;
  s ← get_session true;
  repo_update loadbalancer_repo s (LOADBALANCER_ID loadbalancer)
    [provisioning_status ACTIVE].

Definition MarkLBActiveInDB_revert (mark_subobjects : bool)
    (loadbalancer : dict) (result : task_result unit) : M unit :=
  (if mark_subobjects then
     s ← get_session true;
     db_lb ← repo_get loadbalancer_repo s (LOADBALANCER_ID loadbalancer);
     match db_lb with
     | None => raise AttributeError
     | Some db_lb =>
         for_each (listeners db_lb)
           (fun listener =>
              try_except (_mark_listener_status listener ERROR)
                (fun _ => ret tt))
     end
   else ret tt);;
  mark_loadbalancer_prov_status_error (LOADBALANCER_ID loadbalancer).

(** ** MarkLBAndListenersActiveInDB *)

Definition MarkLBAndListenersActiveInDB_execute
    (loadbalancer_id : option string) (listeners : list dict) : M unit :=
  let lb_id :=
    if truthy loadbalancer_id then loadbalancer_id
    else
      match listeners with
      | l0 :: _ => Some (LOADBALANCER_ID l0)
      | [] => None
      end in
  (if truthy lb_id then
     s ← get_session true;
     repo_update loadbalancer_repo s (default EmptyString lb_id)
       [provisioning_status ACTIVE]
   else ret tt);;
  for_each listeners
    (fun listener =>
       s ← get_session true;
       repo_call s (ProvStatusActiveIfNotError (LISTENER_ID listener))).

Definition MarkLBAndListenersActiveInDB_revert
    (loadbalancer_id : option string) (listeners : list dict)
    (result : task_result unit) : M unit :=
  let lb_id :=
    if truthy loadbalancer_id then loadbalancer_id
    else
      match listeners with
      | l0 :: _ => Some (LOADBALANCER_ID l0)
      | [] => None
      end in
  (if truthy lb_id then
     mark_loadbalancer_prov_status_error (default EmptyString lb_id)
   else ret tt);;
  for_each listeners
    (fun listener => mark_listener_prov_status_error (LISTENER_ID listener)).

(** ** The mark-ACTIVE tasks *)

Definition MarkHealthMonitorActiveInDB_execute (health_mon : dict)
  : M unit :=
  s ← get_session true;
  db_health_mon ← repo_get health_mon_repo s (HEALTHMONITOR_ID health_mon);
  match db_health_mon with
  | None => raise AttributeError
  | Some db_health_mon =>
      let op_status := if hm_enabled db_health_mon then ONLINE else OFFLINE in
      s' ← get_session true;
      repo_update health_mon_repo s' (HEALTHMONITOR_ID health_mon)
        [provisioning_status ACTIVE; operating_status op_status]
  end.

Definition MarkL7PolicyActiveInDB_execute (l7policy : dict) : M unit :=
  s ← get_session true;
  db_l7policy ← repo_get l7policy_repo s (L7POLICY_ID l7policy);
  match db_l7policy with
  | None => raise AttributeError
  | Some db_l7policy =>
      let op_status :=
        if l7policy_enabled db_l7policy then ONLINE else OFFLINE in
      s' ← get_session true;
      repo_update l7policy_repo s' (L7POLICY_ID l7policy)
        [provisioning_status ACTIVE; operating_status op_status]
  end.

Definition MarkL7RuleActiveInDB_execute (l7rule : dict) : M unit :=
  s ← get_session true;
  db_rule ← repo_get l7rule_repo s (L7RULE_ID l7rule);
  match db_rule with
  | None => raise AttributeError
  | Some db_rule =>
      let op_status := if l7rule_enabled db_rule then ONLINE else OFFLINE in
      s' ← get_session true;
      repo_update l7rule_repo s' (L7RULE_ID l7rule)
        [provisioning_status ACTIVE; operating_status op_status]
  end.

Definition MarkMemberActiveInDB_execute (member : dict) : M unit :=
  s ← get_session true;
  repo_update member_repo s (MEMBER_ID member) [provisioning_status ACTIVE].

Definition MarkPoolActiveInDB_execute (pool_id : string) : M unit :=
  s ← get_session true;
  repo_update pool_repo s pool_id [provisioning_status ACTIVE].

Definition MarkLBActiveInDBByListener_execute (listener : dict) : M unit :=
  s ← get_session true;
  repo_update loadbalancer_repo s (LOADBALANCER_ID listener)
    [provisioning_status ACTIVE].

(** ** The quota ledger

    [with excutils.save_and_reraise_exception(): body] runs [body] and then
    raises the saved exception again; an exception raised by [body] itself
    takes its place. *)

Definition DecrementHealthMonitorQuota_execute (project_id : string) : M unit :=
  lock_session ← get_session false;
  try_except
    (decrement_quota lock_session KHealthMonitor project_id 1;;
     commit lock_session)
    (fun e => rollback lock_session;; raise e).

Definition DecrementHealthMonitorQuota_revert (project_id : string)
    (result : task_result unit) : M unit :=
  if negb (is_failure result) then
    try_except
      (session ← get_session true;
       lock_session ← get_session false;
       try_except
         (check_quota_met session lock_session KHealthMonitor project_id;;
          commit lock_session)
         (fun _ => rollback lock_session))
      (fun _ => ret tt)
  else ret tt.

Definition DecrementListenerQuota_execute (project_id : string) : M unit :=
  lock_session ← get_session false;
  try_except
    (decrement_quota lock_session KListener project_id 1;;
     commit lock_session)
    (fun e => rollback lock_session;; raise e).

Definition DecrementListenerQuota_revert (project_id : string)
    (result : task_result unit) : M unit :=
  if negb (is_failure result) then
    try_except
      (session ← get_session true;
       lock_session ← get_session false;
       try_except
         (check_quota_met session lock_session KListener project_id;;
          commit lock_session)
         (fun _ => rollback lock_session))
      (fun _ => ret tt)
  else ret tt.

Definition DecrementLoadBalancerQuota_execute (project_id : string) : M unit :=
  lock_session ← get_session false;
  try_except
    (decrement_quota lock_session KLoadBalancer project_id 1;;
     commit lock_session)
    (fun e => rollback lock_session;; raise e).

Definition DecrementLoadBalancerQuota_revert (project_id : string)
    (result : task_result unit) : M unit :=
  if negb (is_failure result) then
    try_except
      (session ← get_session true;
       lock_session ← get_session false;
       try_except
         (check_quota_met session lock_session KLoadBalancer project_id;;
          commit lock_session)
         (fun _ => rollback lock_session))
      (fun _ => ret tt)
  else ret tt.

Definition DecrementMemberQuota_execute (project_id : string) : M unit :=
  lock_session ← get_session false;
  try_except
    (decrement_quota lock_session KMember project_id 1;;
     commit lock_session)
    (fun e => rollback lock_session;; raise e).

Definition DecrementMemberQuota_revert (project_id : string)
    (result : task_result unit) : M unit :=
  if negb (is_failure result) then
    try_except
      (session ← get_session true;
       lock_session ← get_session false;
       try_except
         (check_quota_met session lock_session KMember project_id;;
          commit lock_session)
         (fun _ => rollback lock_session))
      (fun _ => ret tt)
  else ret tt.

Definition DecrementPoolQuota_execute (project_id : string)
    (child_count : pool_child_count) : M unit :=
  lock_session ← get_session false;
  try_except
    (decrement_quota lock_session KPool project_id 1;;
     (if (HM child_count >? 0)%Z then
        decrement_quota lock_session KHealthMonitor project_id 1
      else ret tt);;
     (if (member child_count >? 0)%Z then
        decrement_quota lock_session KMember project_id (member child_count)
      else ret tt);;
     commit lock_session)
    (fun e => rollback lock_session;; raise e).

Definition DecrementPoolQuota_revert (project_id : string)
    (child_count : pool_child_count) (result : task_result unit) : M unit :=
  if negb (is_failure result) then
    try_except
      (session ← get_session true;
       lock_session ← get_session false;
       try_except
         (check_quota_met session lock_session KPool project_id;;
          commit lock_session)
         (fun _ => rollback lock_session);;
       (if (HM child_count >? 0)%Z then
          lock_session ← get_session false;
          try_except
            (check_quota_met session lock_session KHealthMonitor project_id;;
             commit lock_session)
            (fun _ => rollback lock_session)
        else ret tt);;
       for_each (range (member child_count))
         (fun i =>
            lock_session ← get_session false;
            try_except
              (check_quota_met session lock_session KMember project_id;;
               commit lock_session)
              (fun _ => rollback lock_session)))
      (fun _ => ret tt)
  else ret tt.

Definition DecrementL7policyQuota_execute (l7policy : dict) : M unit :=
  lock_session ← get_session false;
  try_except
    (decrement_quota lock_session KL7Policy (PROJECT_ID l7policy) 1;;
     s ← get_session true;
     db_l7policy ← repo_get l7policy_repo s (L7POLICY_ID l7policy);
     match db_l7policy with
     | Some p =>
         match l7rules p with
         | [] => ret tt
         | _ :: _ =>
             decrement_quota lock_session KL7Rule (PROJECT_ID l7policy)
               (Z.of_nat (length (l7rules p)))
         end
     | None => ret tt
     end;;
     commit lock_session)
    (fun e => rollback lock_session;; raise e).

Definition DecrementL7policyQuota_revert (l7policy : dict)
    (result : task_result unit) : M unit :=
  if negb (is_failure result) then
    try_except
      (session ← get_session true;
       lock_session ← get_session false;
       try_except
         (check_quota_met session lock_session KL7Policy
            (PROJECT_ID l7policy);;
          commit lock_session)
         (fun _ => rollback lock_session);;
       db_l7policy ← repo_get l7policy_repo session (L7POLICY_ID l7policy);
       match db_l7policy with
       | Some p =>
           for_each (seq 0 (length (l7rules p)))
             (fun i =>
                lock_session ← get_session false;
                try_except
                  (check_quota_met session lock_session KL7Rule
                     (l7policy_project_id p);;
                   commit lock_session)
                  (fun _ => rollback lock_session))
       | None => ret tt
       end)
      (fun _ => ret tt)
  else ret tt.

Definition DecrementL7ruleQuota_execute (l7rule : dict) : M unit :=
  lock_session ← get_session false;
  try_except
    (decrement_quota lock_session KL7Rule (PROJECT_ID l7rule) 1;;
     commit lock_session)
    (fun e => rollback lock_session;; raise e).

Definition DecrementL7ruleQuota_revert (l7rule : dict)
    (result : task_result unit) : M unit :=
  if negb (is_failure result) then
    try_except
      (session ← get_session true;
       lock_session ← get_session false;
       try_except
         (check_quota_met session lock_session KL7Rule (PROJECT_ID l7rule);;
          commit lock_session)
         (fun _ => rollback lock_session))
      (fun _ => ret tt)
  else ret tt.

(** ** The engine's view of a task

    [revert_call] is one invocation of a task's [revert] by the workflow
    engine, with the arguments the engine passes. *)
Inductive revert_call : Type :=
| Revert_CreateAmphoraInDB (result : task_result string)
| Revert_DeleteHealthMonitorInDB (health_mon : dict)
    (result : task_result unit)
| Revert_DeleteHealthMonitorInDBByPool (pool_id : string)
    (result : task_result unit)
| Revert_DeleteMemberInDB (member : dict) (result : task_result unit)
| Revert_DeleteListenerInDB (listener : dict) (result : task_result unit)
| Revert_DeletePoolInDB (pool_id : string) (result : task_result unit)
| Revert_DeleteL7PolicyInDB (l7policy : dict) (result : task_result unit)
| Revert_DeleteL7RuleInDB (l7rule : dict) (result : task_result unit)
| Revert_MarkAmphoraMasterInDB (result : task_result unit) (amphora : dict)
| Revert_MarkAmphoraBackupInDB (result : task_result unit) (amphora : dict)
| Revert_MarkAmphoraStandAloneInDB (result : task_result unit)
    (amphora : dict)
| Revert_MarkAmphoraAllocatedInDB (result : task_result unit)
    (amphora : dict) (loadbalancer_id : string)
| Revert_MarkAmphoraBootingInDB (result : task_result unit)
    (amphora_id compute : string)
| Revert_MarkLBActiveInDB (mark_subobjects : bool) (loadbalancer : dict)
    (result : task_result unit)
| Revert_MarkLBAndListenersActiveInDB (loadbalancer_id : option string)
    (listeners : list dict) (result : task_result unit)
| Revert_DecrementHealthMonitorQuota (project_id : string)
    (result : task_result unit)
| Revert_DecrementListenerQuota (project_id : string)
    (result : task_result unit)
| Revert_DecrementLoadBalancerQuota (project_id : string)
    (result : task_result unit)
| Revert_DecrementMemberQuota (project_id : string)
    (result : task_result unit)
| Revert_DecrementPoolQuota (project_id : string)
    (child_count : pool_child_count) (result : task_result unit)
| Revert_DecrementL7policyQuota (l7policy : dict)
    (result : task_result unit)
| Revert_DecrementL7ruleQuota (l7rule : dict) (result : task_result unit).

Definition run_revert (rc : revert_call) : M unit :=
  match rc with
  | Revert_CreateAmphoraInDB result => CreateAmphoraInDB_revert result
  | Revert_DeleteHealthMonitorInDB health_mon result =>
      DeleteHealthMonitorInDB_revert health_mon result
  | Revert_DeleteHealthMonitorInDBByPool pool_id result =>
      DeleteHealthMonitorInDBByPool_revert pool_id result
  | Revert_DeleteMemberInDB member result =>
      DeleteMemberInDB_revert member result
  | Revert_DeleteListenerInDB listener result =>
      DeleteListenerInDB_revert listener result
  | Revert_DeletePoolInDB pool_id result => DeletePoolInDB_revert pool_id result
  | Revert_DeleteL7PolicyInDB l7policy result =>
      DeleteL7PolicyInDB_revert l7policy result
  | Revert_DeleteL7RuleInDB l7rule result =>
      DeleteL7RuleInDB_revert l7rule result
  | Revert_MarkAmphoraMasterInDB result amphora =>
      MarkAmphoraMasterInDB_revert result amphora
  | Revert_MarkAmphoraBackupInDB result amphora =>
      MarkAmphoraBackupInDB_revert result amphora
  | Revert_MarkAmphoraStandAloneInDB result amphora =>
      MarkAmphoraStandAloneInDB_revert result amphora
  | Revert_MarkAmphoraAllocatedInDB result amphora loadbalancer_id =>
      MarkAmphoraAllocatedInDB_revert result amphora loadbalancer_id
  | Revert_MarkAmphoraBootingInDB result amphora_id compute =>
      MarkAmphoraBootingInDB_revert result amphora_id compute
  | Revert_MarkLBActiveInDB mark_subobjects loadbalancer result =>
      MarkLBActiveInDB_revert mark_subobjects loadbalancer result
  | Revert_MarkLBAndListenersActiveInDB loadbalancer_id listeners result =>
      MarkLBAndListenersActiveInDB_revert loadbalancer_id listeners result
  | Revert_DecrementHealthMonitorQuota project_id result =>
      DecrementHealthMonitorQuota_revert project_id result
  | Revert_DecrementListenerQuota project_id result =>
      DecrementListenerQuota_revert project_id result
  | Revert_DecrementLoadBalancerQuota project_id result =>
      DecrementLoadBalancerQuota_revert project_id result
  | Revert_DecrementMemberQuota project_id result =>
      DecrementMemberQuota_revert project_id result
  | Revert_DecrementPoolQuota project_id child_count result =>
      DecrementPoolQuota_revert project_id child_count result
  | Revert_DecrementL7policyQuota l7policy result =>
      DecrementL7policyQuota_revert l7policy result
  | Revert_DecrementL7ruleQuota l7rule result =>
      DecrementL7ruleQuota_revert l7rule result
  end.

(** Whether the engine passed the failure marker. *)
Definition given_failure (rc : revert_call) : bool :=
  match rc with
  | Revert_CreateAmphoraInDB result => is_failure result
  | Revert_DeleteHealthMonitorInDB _ result
  | Revert_DeleteHealthMonitorInDBByPool _ result
  | Revert_DeleteMemberInDB _ result
  | Revert_DeleteListenerInDB _ result
  | Revert_DeletePoolInDB _ result
  | Revert_DeleteL7PolicyInDB _ result
  | Revert_DeleteL7RuleInDB _ result
  | Revert_MarkAmphoraMasterInDB result _
  | Revert_MarkAmphoraBackupInDB result _
  | Revert_MarkAmphoraStandAloneInDB result _
  | Revert_MarkAmphoraAllocatedInDB result _ _
  | Revert_MarkAmphoraBootingInDB result _ _
  | Revert_MarkLBActiveInDB _ _ result
  | Revert_MarkLBAndListenersActiveInDB _ _ result
  | Revert_DecrementHealthMonitorQuota _ result
  | Revert_DecrementListenerQuota _ result
  | Revert_DecrementLoadBalancerQuota _ result
  | Revert_DecrementMemberQuota _ result
  | Revert_DecrementPoolQuota _ _ result
  | Revert_DecrementL7policyQuota _ result
  | Revert_DecrementL7ruleQuota _ result => is_failure result
  end.

(** Whether the task's [revert] declares the [result] parameter (the tasks
    that do test it with [isinstance(result, failure.Failure)]); the others
    declare only their inputs and [*args, **kwargs]. *)
Definition takes_result (rc : revert_call) : bool :=
  match rc with
  | Revert_CreateAmphoraInDB _
  | Revert_MarkAmphoraMasterInDB _ _
  | Revert_MarkAmphoraBackupInDB _ _
  | Revert_MarkAmphoraStandAloneInDB _ _
  | Revert_MarkAmphoraAllocatedInDB _ _ _
  | Revert_MarkAmphoraBootingInDB _ _ _
  | Revert_DecrementHealthMonitorQuota _ _
  | Revert_DecrementListenerQuota _ _
  | Revert_DecrementLoadBalancerQuota _ _
  | Revert_DecrementMemberQuota _ _
  | Revert_DecrementPoolQuota _ _ _
  | Revert_DecrementL7policyQuota _ _
  | Revert_DecrementL7ruleQuota _ _ => true
  | _ => false
  end.

(** Whether every repository call of the task's [revert] is made inside a
    [try: ... except Exception:] (directly or in a [TaskUtils] helper).  The
    reverts of DeleteHealthMonitorInDB and DeleteHealthMonitorInDBByPool,
    and the sub-object branch of MarkLBActiveInDB, call the repository
    outside of any. *)
Definition compensation_guarded (rc : revert_call) : bool :=
  match rc with
  | Revert_DeleteHealthMonitorInDB _ _
  | Revert_DeleteHealthMonitorInDBByPool _ _ => false
  | Revert_MarkLBActiveInDB mark_subobjects _ _ => negb mark_subobjects
  | _ => true
  end.

(** A program that ends without an exception from every world. *)
Definition never_raises (m : M unit) : Prop :=
  forall w, exists w', m w = (Ok tt, w').

(** One invocation of a forward quota-decrement task's [execute]. *)
Inductive quota_execute_call : Type :=
| Execute_DecrementHealthMonitorQuota (project_id : string)
| Execute_DecrementListenerQuota (project_id : string)
| Execute_DecrementLoadBalancerQuota (project_id : string)
| Execute_DecrementMemberQuota (project_id : string)
| Execute_DecrementPoolQuota (project_id : string)
    (child_count : pool_child_count)
| Execute_DecrementL7policyQuota (l7policy : dict)
| Execute_DecrementL7ruleQuota (l7rule : dict).

Definition run_quota_execute (qc : quota_execute_call) : M unit :=
  match qc with
  | Execute_DecrementHealthMonitorQuota project_id =>
      DecrementHealthMonitorQuota_execute project_id
  | Execute_DecrementListenerQuota project_id =>
      DecrementListenerQuota_execute project_id
  | Execute_DecrementLoadBalancerQuota project_id =>
      DecrementLoadBalancerQuota_execute project_id
  | Execute_DecrementMemberQuota project_id =>
      DecrementMemberQuota_execute project_id
  | Execute_DecrementPoolQuota project_id child_count =>
      DecrementPoolQuota_execute project_id child_count
  | Execute_DecrementL7policyQuota l7policy =>
      DecrementL7policyQuota_execute l7policy
  | Execute_DecrementL7ruleQuota l7rule =>
      DecrementL7ruleQuota_execute l7rule
  end.

(** The decrement of the task's own resource kind, the first call made in
    the locking session. *)
Definition own_decrement (qc : quota_execute_call) : call :=
  match qc with
  | Execute_DecrementHealthMonitorQuota project_id =>
      DecrementQuota KHealthMonitor project_id 1
  | Execute_DecrementListenerQuota project_id =>
      DecrementQuota KListener project_id 1
  | Execute_DecrementLoadBalancerQuota project_id =>
      DecrementQuota KLoadBalancer project_id 1
  | Execute_DecrementMemberQuota project_id =>
      DecrementQuota KMember project_id 1
  | Execute_DecrementPoolQuota project_id _ =>
      DecrementQuota KPool project_id 1
  | Execute_DecrementL7policyQuota l7policy =>
      DecrementQuota KL7Policy (PROJECT_ID l7policy) 1
  | Execute_DecrementL7ruleQuota l7rule =>
      DecrementQuota KL7Rule (PROJECT_ID l7rule) 1
  end.

(** ** Observing a run *)

(** The session [get_session] hands out next. *)
Definition next_session (ac : bool) (w : world) : session :=
  {| sid := next_sid w; autocommit := ac |}.

(** The lock session opened [n] sessions from now. *)
Definition later_session (n : nat) (w : world) : session :=
  {| sid := n + next_sid w; autocommit := false |}.

Definition call_of (e : event) : option call :=
  match e with
  | ECall _ c => Some c
  | _ => None
  end.

(** The repository calls of a trace, in order. *)
Definition calls_of (l : list event) : list call := omap call_of l.

Definition session_of (e : event) : session :=
  match e with
  | ECall s _ | ECommit s | ERollback s => s
  end.

Definition is_commit (e : event) : bool :=
  match e with
  | ECommit _ => true
  | _ => false
  end.

(** The trace of one check-and-commit attempt in lock session [ls]: the
    check, then a commit, or a rollback when the check or the commit
    failed. *)
Inductive attempt (ls : session) (c : call) : list event -> Prop :=
| attempt_committed : attempt ls c [ECall ls c; ECommit ls]
| attempt_commit_failed : attempt ls c [ECall ls c; ECommit ls; ERollback ls]
| attempt_check_failed : attempt ls c [ECall ls c; ERollback ls].

(** Issuing calls one after the other, each through a session of its own,
    up to the first one that raises. *)
Definition issue (cs : list call) : M unit :=
  for_each cs
    (fun c =>
       s ← get_session true;
       repo_call s c;;
       ret tt).

(** The updates of the cascading walk, node by node in walk order. *)
Definition member_plan (st : status) (m : Member) : list call :=
  [Update member_repo (member_id_of m) [provisioning_status st]].

Definition hm_plan (st : status) (hm : HealthMonitor) : list call :=
  [Update health_mon_repo (hm_id_of hm) [provisioning_status st]].

Definition pool_plan (st : status) (pool : Pool) : list call :=
  Update pool_repo (pool_id_of pool) [provisioning_status st]
  :: match health_monitor pool with
     | Some hm => hm_plan st hm
     | None => []
     end
  ++ flat_map (member_plan st) (members pool).

Definition l7rule_plan (st : status) (r : L7Rule) : list call :=
  [Update l7rule_repo (l7rule_id_of r) [provisioning_status st]].

Definition l7policy_plan (st : status) (p : L7Policy) : list call :=
  Update l7policy_repo (l7policy_id_of p) [provisioning_status st]
  :: flat_map (l7rule_plan st) (l7rules p)
  ++ match redirect_pool p with
     | Some pool => pool_plan st pool
     | None => []
     end.

Definition listener_plan (st : status) (l : Listener) : list call :=
  Update listener_repo (listener_id_of l) [provisioning_status st]
  :: flat_map (l7policy_plan st) (l7policies l)
  ++ match default_pool l with
     | Some pool => pool_plan st pool
     | None => []
     end.

Definition lb_plan (st : status) (loadbalancer_id : string)
    (lb : LoadBalancer) : list call :=
  flat_map (listener_plan st) (listeners lb)
  ++ [Update loadbalancer_repo loadbalancer_id [provisioning_status st]].

(** The trace of calls made one per autocommit session, the sessions
    numbered from [n]. *)
Fixpoint trace_from (n : nat) (cs : list call) : list event :=
  match cs with
  | [] => []
  | c :: cs' => ECall {| sid := n; autocommit := true |} c :: trace_from (S n) cs'
  end.

(** [spec m w Q]: the run of [m] from [w] ends in a result and a world
    that satisfy [Q]. *)
Definition spec {A : Type} (m : M A) (w : world)
    (Q : outcome A -> world -> Prop) : Prop :=
  forall r w', m w = (r, w') -> Q r w'.

(** The calls of [MarkLBAndListenersActiveInDB.execute]: the load
    balancer's update when an id is at hand, then one conditional
    activation per listener. *)
Definition lb_and_listeners_plan (loadbalancer_id : option string)
    (listeners : list dict) : list call :=
  let lb_id :=
    if truthy loadbalancer_id then loadbalancer_id
    else
      match listeners with
      | l0 :: _ => Some (LOADBALANCER_ID l0)
      | [] => None
      end in
  (if truthy lb_id
   then [Update loadbalancer_repo (default EmptyString lb_id)
           [provisioning_status ACTIVE]]
   else [])
  ++ map (fun l => ProvStatusActiveIfNotError (LISTENER_ID l)) listeners.

(** Running calls on a state, up to the first one that raises. *)
Fixpoint run_calls (cs : list call) (d : DB) : outcome DB :=
  match cs with
  | [] => Ok d
  | c :: cs' =>
      match repo c d with
      | (Ok _, d') => run_calls cs' d'
      | (Raise e, _) => Raise e
      end
  end.

(** A transaction: all the calls, then the commit. *)
Definition transact (cs : list call) (d : DB) : outcome DB :=
  match run_calls cs d with
  | Ok d' =>
      match commit_fault d' with
      | Some e => Raise e
      | None => Ok d'
      end
  | Raise e => Raise e
  end.

(** The decrements of a pool delete: the pool's own, and those of the
    children counted before the cascade delete. *)
Definition pool_decrements (project_id : string)
    (child_count : pool_child_count) : list call :=
  DecrementQuota KPool project_id 1
  :: (if (HM child_count >? 0)%Z
      then [DecrementQuota KHealthMonitor project_id 1] else [])
  ++ (if (member child_count >? 0)%Z
      then [DecrementQuota KMember project_id (member child_count)]
      else []).

(** ** Further tasks of the module *)

Definition MarkLBAmphoraeDeletedInDB_execute (loadbalancer : dict)
  : M unit :=
  s ← get_session true;
  db_lb ← repo_get loadbalancer_repo s (LOADBALANCER_ID loadbalancer);
  match db_lb with
  | None => raise AttributeError
  | Some db_lb =>
      for_each (amphorae db_lb)
        (fun amp =>
           s' ← get_session true;
           repo_update amphora_repo s' (amphora_id_of amp)
             [amp_status DELETED])
  end.

Definition DisableLBAmphoraeHealthMonitoring_execute (loadbalancer : dict)
  : M unit :=
  s ← get_session true;
  db_lb ← repo_get loadbalancer_repo s (LOADBALANCER_ID loadbalancer);
  match db_lb with
  | None => raise AttributeError
  | Some db_lb =>
      for_each (amphorae db_lb)
        (fun amphora => _delete_from_amp_health (amphora_id_of amphora))
  end.

Definition MarkLBAmphoraeHealthBusy_execute (loadbalancer : dict)
  : M unit :=
  s ← get_session true;
  db_lb ← repo_get loadbalancer_repo s (LOADBALANCER_ID loadbalancer);
  match db_lb with
  | None => raise AttributeError
  | Some db_lb =>
      for_each (amphorae db_lb)
        (fun amphora => _mark_amp_health_busy (amphora_id_of amphora))
  end.

Definition MarkAmphoraReadyInDB_execute (amphora : dict) : M unit :=
  s ← get_session true;
  repo_update amphora_repo s (ID amphora)
    [amp_status AMPHORA_READY; compute_id (COMPUTE_ID amphora);
     lb_network_ip (LB_NETWORK_IP amphora)].

Definition MarkAmphoraReadyInDB_revert (amphora : dict)
    (result : task_result unit) : M unit :=
  try_except
    (s ← get_session true;
     repo_update amphora_repo s (ID amphora)
       [amp_status ERROR; compute_id (COMPUTE_ID amphora);
        lb_network_ip (LB_NETWORK_IP amphora)])
    (fun _ => ret tt).

(** The update tasks: [update_dict] is passed on as the keyword arguments
    of the update. *)
Definition UpdateHealthMonInDB_execute (health_mon : dict)
    (update_dict : list field) : M unit :=
  s ← get_session true;
  repo_update health_mon_repo s (HEALTHMONITOR_ID health_mon) update_dict.

Definition UpdateHealthMonInDB_revert (health_mon : dict)
    (result : task_result unit) : M unit :=
  try_except
    (s ← get_session true;
     repo_update health_mon_repo s (HEALTHMONITOR_ID health_mon)
       [provisioning_status ERROR])
    (fun _ => ret tt).

Definition UpdateMemberInDB_execute (member : dict)
    (update_dict : list field) : M unit :=
  s ← get_session true;
  repo_update member_repo s (MEMBER_ID member) update_dict.

Definition UpdateMemberInDB_revert (member : dict)
    (result : task_result unit) : M unit :=
  try_except
    (s ← get_session true;
     repo_update member_repo s (MEMBER_ID member)
       [provisioning_status ERROR])
    (fun _ => ret tt).

Definition UpdateL7PolicyInDB_execute (l7policy : dict)
    (update_dict : list field) : M unit :=
  s ← get_session true;
  repo_update l7policy_repo s (L7POLICY_ID l7policy) update_dict.

Definition UpdateL7PolicyInDB_revert (l7policy : dict)
    (result : task_result unit) : M unit :=
  try_except
    (s ← get_session true;
     repo_update l7policy_repo s (L7POLICY_ID l7policy)
       [provisioning_status ERROR])
    (fun _ => ret tt).

Definition UpdateL7RuleInDB_execute (l7rule : dict)
    (update_dict : list field) : M unit :=
  s ← get_session true;
  repo_update l7rule_repo s (L7RULE_ID l7rule) update_dict.

Definition UpdateL7RuleInDB_revert (l7rule : dict)
    (result : task_result unit) : M unit :=
  try_except
    (s ← get_session true;
     repo_update l7policy_repo s (L7POLICY_ID l7rule)
       [provisioning_status ERROR])
    (fun _ => ret tt).

(** ** Observing the further tasks *)

(** The exceptions the amphora health helpers take for an absent record. *)
Definition record_absent (e : exn) : bool :=
  match e with
  | NoResultFound | UnmappedInstanceError => true
  | _ => false
  end.

(** The one exception the health monitor's delete takes for an absent
    record. *)
Definition only_no_result_found (e : exn) : bool :=
  match e with
  | NoResultFound => true
  | _ => false
  end.

(** What a handler that lets [tolerated] exceptions pass makes of the
    result of a call. *)
Definition tolerating {A : Type} (tolerated : exn -> bool) (o : outcome A)
  : outcome unit :=
  match o with
  | Ok _ => Ok tt
  | Raise e => if tolerated e then Ok tt else Raise e
  end.

(** Calls made one per autocommit session, where exceptions that are
    [tolerated] do not stop the sequence. *)
Definition issue_tolerating (tolerated : exn -> bool) (cs : list call)
  : M unit :=
  for_each cs
    (fun c =>
       try_except
         (s ← get_session true;
          repo_call s c;;
          ret tt)
         (fun e => if tolerated e then ret tt else raise e)).

(** What [issue_tolerating] leaves behind: all the calls, or the calls up
    to and including the first that raises an exception not tolerated. *)
Definition issued_tolerating (tolerated : exn -> bool) (cs : list call)
    (w : world) (r : outcome unit) (w' : world) : Prop :=
  exists made,
    log w' = log w ++ trace_from (next_sid w) made
    /\ next_sid w' = length made + next_sid w
    /\ match r with
       | Ok _ => made = cs
       | Raise e =>
           tolerated e = false
           /\ exists pre c post,
                cs = pre ++ c :: post /\ made = pre ++ [c]
                /\ exists d, fst (repo c d) = Raise e
       end.

(** What a task that reads the load balancer and then makes one call per
    amphora ends in, the calls [made] after the read being judged by
    [after]: without the load balancer the read is the only call and the
    task raises. *)
Definition per_amphora (loadbalancer : dict) (m : M unit)
    (per : Amphora -> call)
    (after : list call -> world -> outcome unit -> world -> Prop)
    (w : world) : Prop :=
  let get := Get loadbalancer_repo (LOADBALANCER_ID loadbalancer) in
  let w1 :=
    {| store := store w; txns := txns w; next_sid := S (next_sid w);
       log := log w ++ trace_from (next_sid w) [get] |} in
  match fst (repo get (store w)) with
  | Ok (Some db_lb) =>
      exists r w', m w = (r, w') /\ after (map per (amphorae db_lb)) w1 r w'
  | Ok None => m w = (Raise AttributeError, w1)
  | Raise e => m w = (Raise e, w1)
  end.



(** The decrement of the rules of a deleted L7 policy, given what [get]
    returned for the policy: none without rules, else one by their
    number, on the project of the task's input. *)
Definition l7rule_decrements (l7policy : dict)
    (db_l7policy : option L7Policy) : list call :=
  match db_l7policy with
  | Some p =>
      match l7rules p with
      | [] => []
      | _ :: _ =>
          [DecrementQuota KL7Rule (PROJECT_ID l7policy)
             (Z.of_nat (length (l7rules p)))]
      end
  | None => []
  end.


(** The store a transaction leaves: the committed one, or the one before. *)
Definition transacted (cs : list call) (d before : DB) : DB :=
  match transact cs d with
  | Ok d' => d'
  | Raise _ => before
  end.

(** The forward quota tasks that make one decrement only. *)
Definition single_decrement (qc : quota_execute_call) : bool :=
  match qc with
  | Execute_DecrementPoolQuota _ _ | Execute_DecrementL7policyQuota _ =>
      false
  | _ => true
  end.

(** The number of rows the cascading walk updates under a pool, an L7
    policy and a listener. *)
Definition pool_nodes (pool : Pool) : nat :=
  1
  + match health_monitor pool with
    | Some _ => 1
    | None => 0
    end
  + length (members pool).

Definition l7policy_nodes (p : L7Policy) : nat :=
  1 + length (l7rules p)
  + match redirect_pool p with
    | Some pool => pool_nodes pool
    | None => 0
    end.

Definition listener_nodes (l : Listener) : nat :=
  1 + list_sum (map l7policy_nodes (l7policies l))
  + match default_pool l with
    | Some pool => pool_nodes pool
    | None => 0
    end.

Definition lb_nodes (lb : LoadBalancer) : nat :=
  1 + list_sum (map listener_nodes (listeners lb)).

(** An update of the provisioning status alone, to [st]. *)
Definition sets_status (st : status) (c : call) : Prop :=
  exists r id, c = Update r id [provisioning_status st].

(** The world after one call [c] made through a fresh autocommit session:
    whatever the call did to the store stays. *)
Definition after_call (c : call) (w : world) : world :=
  {| store := snd (repo c (store w)); txns := txns w;
     next_sid := S (next_sid w);
     log := log w ++ trace_from (next_sid w) [c] |}.

(** [except Exception]: every exception is taken. *)
Definition any_exception (e : exn) : bool := true.

(** The calls of [MarkLBAndListenersActiveInDB.revert]: the load
    balancer's ERROR mark when an id is at hand, then one ERROR mark per
    listener. *)
Definition lb_and_listeners_error_plan (loadbalancer_id : option string)
    (listeners : list dict) : list call :=
  let lb_id :=
    if truthy loadbalancer_id then loadbalancer_id
    else
      match listeners with
      | l0 :: _ => Some (LOADBALANCER_ID l0)
      | [] => None
      end in
  (if truthy lb_id
   then [Update loadbalancer_repo (default EmptyString lb_id)
           [provisioning_status ERROR]]
   else [])
  ++ map (fun l => Update listener_repo (LISTENER_ID l)
                     [provisioning_status ERROR]) listeners.

(** ** What a sequence of calls comes to *)

(** Issuing the calls [cs] one after the other on the store [d]: the
    result, the store left and the calls made.  A call that raises is the
    last one made, its exception is the result, and what it did to the
    store stays; when none raises all of [cs] are made. *)
Fixpoint issue_outcome (cs : list call) (d : DB)
  : outcome unit * DB * list call :=
  match cs with
  | [] => (Ok tt, d, [])
  | c :: cs' =>
      match repo c d with
      | (Ok _, d') =>
          let '(r, d'', made) := issue_outcome cs' d' in (r, d'', c :: made)
      | (Raise e, d') => (Raise e, d', [c])
      end
  end.

(** The same where a handler lets the [tolerated] exceptions pass: a call
    that raises one of them is followed by the next call; the first call
    that raises another exception is the last one made. *)
Fixpoint issue_tolerating_outcome (tolerated : exn -> bool) (cs : list call)
    (d : DB) : outcome unit * DB * list call :=
  match cs with
  | [] => (Ok tt, d, [])
  | c :: cs' =>
      match repo c d with
      | (Ok _, d') =>
          let '(r, d'', made) := issue_tolerating_outcome tolerated cs' d' in
          (r, d'', c :: made)
      | (Raise e, d') =>
          if tolerated e then
            let '(r, d'', made) :=
              issue_tolerating_outcome tolerated cs' d' in
            (r, d'', c :: made)
          else (Raise e, d', [c])
      end
  end.

(** The world after the calls [made], each through a fresh autocommit
    session, have left the store [d]. *)
Definition after_calls (made : list call) (d : DB) (w : world) : world :=
  {| store := d; txns := txns w;
     next_sid := length made + next_sid w;
     log := log w ++ trace_from (next_sid w) made |}.

(** A run from [w] that ended in [r] and [w'] did what issuing [cs] comes
    to, and nothing else. *)
Definition issued_exactly (cs : list call) (w : world) (r : outcome unit)
    (w' : world) : Prop :=
  let '(r0, d, made) := issue_outcome cs (store w) in
  r = r0 /\ w' = after_calls made d w.

Definition issued_tolerating_exactly (tolerated : exn -> bool)
    (cs : list call) (w : world) (r : outcome unit) (w' : world) : Prop :=
  let '(r0, d, made) := issue_tolerating_outcome tolerated cs (store w) in
  r = r0 /\ w' = after_calls made d w.

(** The reverting walk over the listeners of a load balancer: the plan of
    each listener is issued up to its first failure, the failure is
    dropped, and the walk goes on with the next listener from the store
    that was left. *)
Fixpoint revert_listeners_outcome (ls : list Listener) (d : DB)
  : DB * list call :=
  match ls with
  | [] => (d, [])
  | l :: ls' =>
      let '(_, d', made) := issue_outcome (listener_plan ERROR l) d in
      let '(d'', made') := revert_listeners_outcome ls' d' in
      (d'', made ++ made')
  end.

(** ** The rows of a stored load balancer, kind by kind *)

Definition lb_l7policies (lb : LoadBalancer) : list L7Policy :=
  flat_map l7policies (listeners lb).

(** The pools under a load balancer: the default pools of its listeners and
    the redirect pools of their L7 policies, a pool that is reached twice
    being counted twice. *)
Definition lb_pools (lb : LoadBalancer) : list Pool :=
  flat_map (fun l => option_list (default_pool l)) (listeners lb)
  ++ flat_map (fun p => option_list (redirect_pool p)) (lb_l7policies lb).

Definition lb_rows (loadbalancer_id : string) (lb : LoadBalancer)
  : list (repo_name * string) :=
  (loadbalancer_repo, loadbalancer_id)
  :: map (fun l => (listener_repo, listener_id_of l)) (listeners lb)
  ++ map (fun p => (l7policy_repo, l7policy_id_of p)) (lb_l7policies lb)
  ++ map (fun r => (l7rule_repo, l7rule_id_of r))
       (flat_map l7rules (lb_l7policies lb))
  ++ map (fun q => (pool_repo, pool_id_of q)) (lb_pools lb)
  ++ map (fun h => (health_mon_repo, hm_id_of h))
       (flat_map (fun q => option_list (health_monitor q)) (lb_pools lb))
  ++ map (fun m => (member_repo, member_id_of m))
       (flat_map members (lb_pools lb)).

(** The update that sets the provisioning status of a row to [st]. *)
Definition mark_row (st : status) (row : repo_name * string) : call :=
  Update (fst row) (snd row) [provisioning_status st].

(** ** The engine's failure marker *)

(** The invocation [rc] of a [revert] that declares only the task's inputs,
    with [result] among the keyword arguments instead of what it was handed;
    the invocations of a [revert] that declares [result] are left as they
    are. *)
Definition with_result (result : task_result unit) (rc : revert_call)
  : revert_call :=
  match rc with
  | Revert_DeleteHealthMonitorInDB health_mon _ =>
      Revert_DeleteHealthMonitorInDB health_mon result
  | Revert_DeleteHealthMonitorInDBByPool pool_id _ =>
      Revert_DeleteHealthMonitorInDBByPool pool_id result
  | Revert_DeleteMemberInDB member _ => Revert_DeleteMemberInDB member result
  | Revert_DeleteListenerInDB listener _ =>
      Revert_DeleteListenerInDB listener result
  | Revert_DeletePoolInDB pool_id _ => Revert_DeletePoolInDB pool_id result
  | Revert_DeleteL7PolicyInDB l7policy _ =>
      Revert_DeleteL7PolicyInDB l7policy result
  | Revert_DeleteL7RuleInDB l7rule _ => Revert_DeleteL7RuleInDB l7rule result
  | Revert_MarkLBActiveInDB mark_subobjects loadbalancer _ =>
      Revert_MarkLBActiveInDB mark_subobjects loadbalancer result
  | Revert_MarkLBAndListenersActiveInDB loadbalancer_id listeners _ =>
      Revert_MarkLBAndListenersActiveInDB loadbalancer_id listeners result
  | _ => rc
  end.

End Tasks.

(** ** A reference repository

    Modelled from the spec: the repository adapter (the persistence layer
    of [octavia.db.repositories], which is not part of this module): per
    entity [get], [update] and [delete], and the two quota primitives
    [decrement] and [check_quota_met].  [delete] of a row that does not
    exist raises [NoResultFound]; [update] of one writes nothing; a pool's
    health monitor and members are deleted with it; a decrement that would
    take a counter below zero fails; [check_quota_met] counts one more unit
    in use unless the limit is reached.  A store can be told to refuse
    given calls, which then raise without touching it. *)
Module Ref.

#[local] Instance status_eq_dec : EqDecision status.
Proof. solve_decision. Defined.
#[local] Instance op_status_eq_dec : EqDecision op_status.
Proof. solve_decision. Defined.
#[local] Instance amp_role_eq_dec : EqDecision amp_role.
Proof. solve_decision. Defined.
#[local] Instance repo_name_eq_dec : EqDecision repo_name.
Proof. solve_decision. Defined.
#[local] Instance resource_kind_eq_dec : EqDecision resource_kind.
Proof. solve_decision. Defined.
#[local] Instance field_eq_dec : EqDecision field.
Proof. solve_decision. Defined.
#[local] Instance call_eq_dec : EqDecision call.
Proof. solve_decision. Defined.

Definition repo_code (r : repo_name) : nat :=
  match r with
  | amphora_repo => 0 | health_mon_repo => 1 | listener_repo => 2
  | loadbalancer_repo => 3 | member_repo => 4 | pool_repo => 5
  | amp_health_repo => 6 | l7policy_repo => 7 | l7rule_repo => 8
  end.

Definition kind_code (k : resource_kind) : nat :=
  match k with
  | KLoadBalancer => 0 | KListener => 1 | KPool => 2 | KMember => 3
  | KHealthMonitor => 4 | KL7Policy => 5 | KL7Rule => 6
  end.

(** A stored row: the columns written so far, the attributes the tasks
    read, and the rows it owns. *)
Record row : Type := {
  columns : list field;
  enabled : bool;
  project : string;
  owns : list (repo_name * string)
}.

Record db : Type := {
  rows : gmap (nat * string) row;
  in_use : gmap (string * nat) Z;
  limit : gmap (string * nat) Z;
  refused : list call;
  commit_error : option exn
}.

Definition key (r : repo_name) (id : string) : nat * string :=
  (repo_code r, id).

Definition same_column (f g : field) : bool :=
  match f, g with
  | provisioning_status _, provisioning_status _
  | operating_status _, operating_status _
  | amp_status _, amp_status _
  | role _, role _
  | vrrp_priority _, vrrp_priority _
  | compute_id _, compute_id _
  | lb_network_ip _, lb_network_ip _
  | load_balancer_id _, load_balancer_id _
  | loadbalancer_id_kw _, loadbalancer_id_kw _
  | busy _, busy _ => true
  | _, _ => false
  end.

(** Writing the keyword arguments [kw] over the columns [old]. *)
Definition write_columns (kw old : list field) : list field :=
  kw ++ List.filter (fun f => negb (existsb (same_column f) kw)) old.

Definition set_rows (d : db) (m : gmap (nat * string) row) : db :=
  {| rows := m; in_use := in_use d; limit := limit d;
     refused := refused d; commit_error := commit_error d |}.

Definition set_in_use (d : db) (m : gmap (string * nat) Z) : db :=
  {| rows := rows d; in_use := m; limit := limit d;
     refused := refused d; commit_error := commit_error d |}.

Fixpoint provisioning_status_in (l : list field) : option status :=
  match l with
  | [] => None
  | provisioning_status s :: _ => Some s
  | _ :: l' => provisioning_status_in l'
  end.

Fixpoint operating_status_in (l : list field) : option op_status :=
  match l with
  | [] => None
  | operating_status o :: _ => Some o
  | _ :: l' => operating_status_in l'
  end.

Fixpoint role_in (l : list field) : option amp_role :=
  match l with
  | [] => None
  | role r :: _ => r
  | _ :: l' => role_in l'
  end.

Fixpoint vrrp_priority_in (l : list field) : option Z :=
  match l with
  | [] => None
  | vrrp_priority p :: _ => p
  | _ :: l' => vrrp_priority_in l'
  end.

Fixpoint busy_in (l : list field) : bool :=
  match l with
  | [] => false
  | busy b :: _ => b
  | _ :: l' => busy_in l'
  end.

(** The ids of the rows of repository [r] that a row owns. *)
Definition owned (r : repo_name) (rw : row) : list string :=
  map snd (List.filter (fun o => bool_decide (fst o = r)) (owns rw)).

Definition get_member (d : db) (id : string) : option Member :=
  rw ← rows d !! key member_repo id;
  Some {| member_id_of := id; member_enabled := enabled rw |}.

Definition get_hm (d : db) (id : string) : option HealthMonitor :=
  rw ← rows d !! key health_mon_repo id;
  Some {| hm_id_of := id; hm_enabled := enabled rw |}.

Definition get_pool (d : db) (id : string) : option Pool :=
  rw ← rows d !! key pool_repo id;
  Some {| pool_id_of := id;
          health_monitor := head (omap (get_hm d) (owned health_mon_repo rw));
          members := omap (get_member d) (owned member_repo rw) |}.

Definition get_l7rule (d : db) (id : string) : option L7Rule :=
  rw ← rows d !! key l7rule_repo id;
  Some {| l7rule_id_of := id; l7rule_enabled := enabled rw |}.

Definition get_l7policy (d : db) (id : string) : option L7Policy :=
  rw ← rows d !! key l7policy_repo id;
  Some {| l7policy_id_of := id; l7policy_enabled := enabled rw;
          l7policy_project_id := project rw;
          l7rules := omap (get_l7rule d) (owned l7rule_repo rw);
          redirect_pool := head (omap (get_pool d) (owned pool_repo rw)) |}.

Definition get_listener (d : db) (id : string) : option Listener :=
  rw ← rows d !! key listener_repo id;
  Some {| listener_id_of := id;
          l7policies := omap (get_l7policy d) (owned l7policy_repo rw);
          default_pool := head (omap (get_pool d) (owned pool_repo rw)) |}.

Definition get_amphora (d : db) (id : string) : option Amphora :=
  rw ← rows d !! key amphora_repo id;
  Some {| amphora_id_of := id |}.

Definition get_amp_health (d : db) (id : string) : option AmphoraHealth :=
  rw ← rows d !! key amp_health_repo id;
  Some {| amphora_health_id_of := id;
          amphora_health_busy := busy_in (columns rw) |}.

Definition get_lb (d : db) (id : string) : option LoadBalancer :=
  rw ← rows d !! key loadbalancer_repo id;
  Some {| lb_id_of := id;
          listeners := omap (get_listener d) (owned listener_repo rw);
          amphorae := omap (get_amphora d) (owned amphora_repo rw) |}.

Definition get (d : db) (r : repo_name) (id : string) : option (model_of r) :=
  match r with
  | amphora_repo => get_amphora d id
  | health_mon_repo => get_hm d id
  | listener_repo => get_listener d id
  | loadbalancer_repo => get_lb d id
  | member_repo => get_member d id
  | pool_repo => get_pool d id
  | amp_health_repo => get_amp_health d id
  | l7policy_repo => get_l7policy d id
  | l7rule_repo => get_l7rule d id
  end.

Definition update (d : db) (r : repo_name) (id : string) (kw : list field)
  : db :=
  match rows d !! key r id with
  | Some rw =>
      set_rows d
        (<[key r id :=
             {| columns := write_columns kw (columns rw);
                enabled := enabled rw; project := project rw;
                owns := owns rw |}]> (rows d))
  | None => d
  end.

(** The rows deleted along with a row of repository [r]. *)
Definition cascade (r : repo_name) (rw : row) : list (nat * string) :=
  match r with
  | pool_repo =>
      map (key health_mon_repo) (owned health_mon_repo rw)
      ++ map (key member_repo) (owned member_repo rw)
  | _ => []
  end.

Definition delete_row (d : db) (r : repo_name) (id : string)
  : outcome unit * db :=
  match rows d !! key r id with
  | Some rw =>
      (Ok tt,
       set_rows d
         (foldr (fun k m => delete k m) (delete (key r id) (rows d))
            (cascade r rw)))
  | None => (Raise NoResultFound, d)
  end.

(** [ListenerRepository.prov_status_active_if_not_error] is not part of
    this module, and the specification does not describe it.  The
    reference repository takes the reading its name gives: the listener's
    provisioning status becomes ACTIVE unless it is ERROR, and a listener
    that is not stored is left alone.  Nothing that is proved about the
    tasks rests on this reading: what is proved of
    MarkLBAndListenersActiveInDB holds for every repository. *)
Definition prov_status_active_if_not_error (d : db) (id : string) : db :=
  match rows d !! key listener_repo id with
  | Some rw =>
      match provisioning_status_in (columns rw) with
      | Some ERROR => d
      | _ => update d listener_repo id [provisioning_status ACTIVE]
      end
  | None => d
  end.

Definition counter (d : db) (project_id : string) (k : resource_kind) : Z :=
  default 0%Z (in_use d !! (project_id, kind_code k)).

Definition decrement (d : db) (k : resource_kind) (project_id : string)
    (quantity : Z) : outcome unit * db :=
  if (counter d project_id k <? quantity)%Z then (Raise (OtherError 1), d)
  else
    (Ok tt,
     set_in_use d
       (<[(project_id, kind_code k) := (counter d project_id k - quantity)%Z]>
          (in_use d))).

Definition check_quota (d : db) (k : resource_kind) (project_id : string)
  : outcome bool * db :=
  match limit d !! (project_id, kind_code k) with
  | Some lim =>
      if (lim <=? counter d project_id k)%Z then (Ok true, d)
      else
        (Ok false,
         set_in_use d
           (<[(project_id, kind_code k) := (counter d project_id k + 1)%Z]>
              (in_use d)))
  | None =>
      (Ok false,
       set_in_use d
         (<[(project_id, kind_code k) := (counter d project_id k + 1)%Z]>
            (in_use d)))
  end.

(** The provisioning status stored for a row: [None] when there is no such
    row, [Some None] when the column was never written. *)
Definition prov_status (d : db) (r : repo_name) (id : string)
  : option (option status) :=
  (fun rw => provisioning_status_in (columns rw)) <$> rows d !! key r id.

Definition op_status (d : db) (r : repo_name) (id : string)
  : option (option op_status) :=
  (fun rw => operating_status_in (columns rw)) <$> rows d !! key r id.

Definition run (c : call) (d : db) : outcome (ret_ty c) * db :=
  if bool_decide (c ∈ refused d) then (Raise (OtherError 0), d)
  else
    match c as c0 return outcome (ret_ty c0) * db with
    | Get r id => (Ok (get d r id), d)
    | Update r id kw => (Ok tt, update d r id kw)
    | Delete r id => delete_row d r id
    | ProvStatusActiveIfNotError id =>
        (Ok tt, prov_status_active_if_not_error d id)
    | DecrementQuota k project_id quantity =>
        decrement d k project_id quantity
    | CheckQuotaMet k project_id => check_quota d k project_id
    end.

Definition refusing (cs : list call) (d : db) : db :=
  {| rows := rows d; in_use := in_use d; limit := limit d;
     refused := cs; commit_error := commit_error d |}.

Lemma run_get_readonly (r : repo_name) (id : string) (d : db) :
  snd (run (Get r id) d) = d.
Proof. unfold run. destruct (bool_decide _); reflexivity. Qed.

Definition repository : Repository :=
  {| DB := db; repo := run; commit_fault := commit_error;
     get_readonly := run_get_readonly |}.

Definition constants : Constants :=
  {| ROLE_MASTER_PRIORITY := 100; ROLE_BACKUP_PRIORITY := 90 |}.

(** A world with nothing in flight. *)
Definition initial (d : db) : @world repository :=
  @Build_world repository d ∅ 0 [].

End Ref.

(** ** A stored load balancer to run the tasks on *)
Module Example.

Import Ref.

Local Open Scope string_scope.

Definition new_row (st : status) (en : bool)
    (o : list (repo_name * string)) : row :=
  {| columns := [provisioning_status st]; enabled := en;
     project := "project-1"; owns := o |}.

(** Load balancer lb-1 with two listeners: li-1 (an L7 policy with one rule,
    and a default pool with a health monitor and two members), being
    updated, and li-2, in ERROR. *)
Definition stored : db :=
  {| rows :=
       list_to_map
         [ (key loadbalancer_repo "lb-1",
            new_row PENDING_UPDATE true
              [(listener_repo, "li-1"); (listener_repo, "li-2");
               (amphora_repo, "amp-1")]);
           (key listener_repo "li-1",
            new_row PENDING_UPDATE true
              [(l7policy_repo, "po-1"); (pool_repo, "pool-1")]);
           (key listener_repo "li-2", new_row ERROR true []);
           (key l7policy_repo "po-1",
            new_row PENDING_UPDATE true [(l7rule_repo, "ru-1")]);
           (key l7rule_repo "ru-1", new_row PENDING_UPDATE false []);
           (key pool_repo "pool-1",
            new_row PENDING_UPDATE true
              [(health_mon_repo, "hm-1"); (member_repo, "m-1");
               (member_repo, "m-2")]);
           (key health_mon_repo "hm-1", new_row PENDING_DELETE true []);
           (key member_repo "m-1", new_row PENDING_UPDATE true []);
           (key member_repo "m-2", new_row PENDING_UPDATE false []);
           (key amphora_repo "amp-1",
            {| columns :=
                 [amp_status AMPHORA_ALLOCATED; role (Some ROLE_MASTER);
                  vrrp_priority (Some 100%Z)];
               enabled := true; project := "project-1"; owns := [] |}) ];
     in_use :=
       list_to_map
         [ (("project-1", kind_code KPool), 2%Z);
           (("project-1", kind_code KHealthMonitor), 1%Z);
           (("project-1", kind_code KMember), 5%Z) ];
     limit := ∅;
     refused := [];
     commit_error := None |}.

(** The provider dictionary naming the stored entities. *)
Definition inputs : dict :=
  {| ID := "amp-1"; COMPUTE_ID := "compute-1"; LB_NETWORK_IP := "10.0.0.5";
     PROJECT_ID := "project-1"; LOADBALANCER_ID := "lb-1";
     LISTENER_ID := "li-1"; HEALTHMONITOR_ID := "hm-1"; MEMBER_ID := "m-1";
     L7POLICY_ID := "po-1"; L7RULE_ID := "ru-1" |}.

(** A provider dictionary naming entities that are not stored, in a project
    with nothing in use. *)
Definition absent : dict :=
  {| ID := "amp-9"; COMPUTE_ID := "compute-9"; LB_NETWORK_IP := "10.0.0.9";
     PROJECT_ID := "project-9"; LOADBALANCER_ID := "lb-9";
     LISTENER_ID := "li-9"; HEALTHMONITOR_ID := "hm-9"; MEMBER_ID := "m-9";
     L7POLICY_ID := "po-9"; L7RULE_ID := "ru-9" |}.

Definition listener (id : string) : dict :=
  {| ID := id; COMPUTE_ID := ""; LB_NETWORK_IP := "";
     PROJECT_ID := "project-1"; LOADBALANCER_ID := "lb-1";
     LISTENER_ID := id; HEALTHMONITOR_ID := ""; MEMBER_ID := "";
     L7POLICY_ID := ""; L7RULE_ID := "" |}.

Definition pool_1 : Pool :=
  {| pool_id_of := "pool-1";
     health_monitor := Some {| hm_id_of := "hm-1"; hm_enabled := true |};
     members :=
       [ {| member_id_of := "m-1"; member_enabled := true |};
         {| member_id_of := "m-2"; member_enabled := false |} ] |}.

(** What [get] returns for lb-1. *)
Definition lb_1 : LoadBalancer :=
  {| lb_id_of := "lb-1";
     listeners :=
       [ {| listener_id_of := "li-1";
            l7policies :=
              [ {| l7policy_id_of := "po-1"; l7policy_enabled := true;
                   l7policy_project_id := "project-1";
                   l7rules :=
                     [ {| l7rule_id_of := "ru-1";
                          l7rule_enabled := false |} ];
                   redirect_pool := None |} ];
            default_pool := Some pool_1 |};
         {| listener_id_of := "li-2"; l7policies := [];
            default_pool := None |} ];
     amphorae := [ {| amphora_id_of := "amp-1" |} ] |}.

(** Running a task from a world with nothing in flight. *)
Definition run_task {A : Type} (m : @M repository A) (d : db)
  : outcome A * @world repository :=
  m (initial d).

End Example.

(** * Properties of the tasks *)

Section Properties.

Context {R : Repository} {C : Constants}.

#[local] Existing Instances M_ret M_bind M_throw.

Ltac unfold_monad :=
  unfold try_except, mbind, M_bind, bind, mret, M_ret, ret, mthrow, M_throw,
    raise, repo_update, repo_delete, repo_get, decrement_quota,
    check_quota_met, repo_call, get_session, commit, rollback, add_event,
    working in *.

Ltac norm :=
  simpl in *;
  rewrite ?lookup_insert_eq, ?lookup_delete_eq, ?insert_insert_eq in *;
  simpl in *.

(** Case analysis on the next repository call or commit of the goal; a
    [get] leaves the store as it was. *)
Ltac case_repo :=
  match goal with
  | |- context [repo (Get ?r ?id) ?d] =>
      let a := fresh "a" in
      let d' := fresh "d" in
      let H := fresh "Hrepo" in
      let Hro := fresh "Hro" in
      pose proof (get_readonly r id d) as Hro;
      destruct (repo (Get r id) d) as [[a|a] d'] eqn:H;
      simpl in Hro; subst d'; norm
  | |- context [repo ?c ?d] =>
      let a := fresh "a" in
      let d' := fresh "d" in
      let H := fresh "Hrepo" in
      destruct (repo c d) as [[a|a] d'] eqn:H; norm
  | |- context [commit_fault ?d] =>
      let e := fresh "e" in
      let H := fresh "Hcommit" in
      destruct (commit_fault d) as [e|] eqn:H; norm
  end.

Ltac unfold_quota_execute :=
  unfold DecrementHealthMonitorQuota_execute, DecrementListenerQuota_execute,
    DecrementLoadBalancerQuota_execute, DecrementMemberQuota_execute,
    DecrementPoolQuota_execute, DecrementL7policyQuota_execute,
    DecrementL7ruleQuota_execute.

(** ** Rules for [spec] *)

Lemma spec_run {A : Type} (m : M A) (w : world)
    (Q : outcome A -> world -> Prop) :
  spec m w Q -> exists r w', m w = (r, w') /\ Q r w'.
Proof.
  intros H. destruct (m w) as [r w'] eqn:E. exists r, w'.
  split; [reflexivity | apply H, E].
Qed.

Lemma spec_weaken {A : Type} (m : M A) (w : world)
    (Q Q' : outcome A -> world -> Prop) :
  spec m w Q -> (forall r w', Q r w' -> Q' r w') -> spec m w Q'.
Proof. intros H HQ r w' E. apply HQ, H, E. Qed.

Lemma spec_ext {A : Type} (m m' : M A) (w : world)
    (Q : outcome A -> world -> Prop) :
  m w = m' w -> spec m' w Q -> spec m w Q.
Proof. intros E H r w' E'. apply H. rewrite <- E. exact E'. Qed.

Lemma spec_ret {A : Type} (a : A) (w : world)
    (Q : outcome A -> world -> Prop) :
  Q (Ok a) w -> spec (ret a) w Q.
Proof. intros H r w' E. inversion E; subst. exact H. Qed.

Lemma spec_raise {A : Type} (e : exn) (w : world)
    (Q : outcome A -> world -> Prop) :
  Q (Raise e) w -> spec (raise e) w Q.
Proof. intros H r w' E. inversion E; subst. exact H. Qed.

Lemma spec_bind {A B : Type} (m : M A) (k : A -> M B) (w : world)
    (Q : outcome B -> world -> Prop) :
  spec m w
    (fun r w1 =>
       match r with
       | Ok a => spec (k a) w1 Q
       | Raise e => Q (Raise e) w1
       end) ->
  spec (m ≫= k) w Q.
Proof.
  intros H r w' E. unfold mbind, M_bind, bind in E.
  destruct (m w) as [[a|e] w1] eqn:Em.
  - exact (H _ _ Em _ _ E).
  - inversion E; subst. exact (H _ _ Em).
Qed.

Lemma spec_try {A : Type} (m : M A) (h : exn -> M A) (w : world)
    (Q : outcome A -> world -> Prop) :
  spec m w
    (fun r w1 =>
       match r with
       | Ok a => Q (Ok a) w1
       | Raise e => spec (h e) w1 Q
       end) ->
  spec (try_except m h) w Q.
Proof.
  intros H r w' E. unfold try_except in E.
  destruct (m w) as [[a|e] w1] eqn:Em.
  - inversion E; subst. exact (H _ _ Em).
  - exact (H _ _ Em _ _ E).
Qed.

Lemma spec_get_session (ac : bool) (w : world)
    (Q : outcome session -> world -> Prop) :
  Q (Ok (next_session ac w))
    {| store := store w; txns := txns w; next_sid := S (next_sid w);
       log := log w |} ->
  spec (get_session ac) w Q.
Proof. intros H r w' E. inversion E; subst. exact H. Qed.

(** A call through a fresh autocommit session. *)
Lemma spec_fresh_call (c : call) (w : world)
    (Q : outcome (ret_ty c) -> world -> Prop) :
  (forall r d, repo c (store w) = (r, d) ->
     Q r {| store := d; txns := txns w; next_sid := S (next_sid w);
            log := log w ++ [ECall (next_session true w) c] |}) ->
  spec (get_session true ≫= fun s => repo_call s c) w Q.
Proof.
  intros H r w' E. unfold_monad. simpl in E.
  destruct (repo c (store w)) as [r0 d] eqn:Hr.
  inversion E; subst. apply H. reflexivity.
Qed.

Lemma spec_fresh_update (r : repo_name) (id : string) (kw : list field)
    (w : world) (Q : outcome unit -> world -> Prop) :
  (forall o d, repo (Update r id kw) (store w) = (o, d) ->
     Q o {| store := d; txns := txns w; next_sid := S (next_sid w);
            log := log w ++ trace_from (next_sid w) [Update r id kw] |}) ->
  spec (get_session true ≫= fun s => repo_update r s id kw) w Q.
Proof. intros H. apply (spec_fresh_call (Update r id kw)). exact H. Qed.



(** ** Traces *)

Lemma trace_from_app (n : nat) (cs cs' : list call) :
  trace_from n (cs ++ cs')
  = trace_from n cs ++ trace_from (length cs + n) cs'.
Proof.
  revert n. induction cs as [|c cs IH]; intros n; simpl; [reflexivity|].
  rewrite IH. do 3 f_equal. lia.
Qed.

Lemma calls_of_app (l l' : list event) :
  calls_of (l ++ l') = calls_of l ++ calls_of l'.
Proof. unfold calls_of. apply omap_app. Qed.

Lemma calls_of_trace_from (n : nat) (cs : list call) :
  calls_of (trace_from n cs) = cs.
Proof.
  revert n. induction cs as [|c cs IH]; intros n; [reflexivity|].
  change (calls_of (trace_from n (c :: cs)))
    with (c :: calls_of (trace_from (S n) cs)).
  rewrite IH. reflexivity.
Qed.

(** ** The cascading walk issues its plan *)

Lemma issue_app (cs cs' : list call) (w : world) :
  issue (cs ++ cs') w = (issue cs;; issue cs') w.
Proof.
  revert w. induction cs as [|c cs IH]; intros w.
  - reflexivity.
  - unfold issue in *. simpl. unfold mbind, M_bind, bind in *. simpl.
    destruct (repo_call _ c _) as [[a|e] w1]; simpl;
      [apply IH | reflexivity].
Qed.

Lemma bind_ext {A B : Type} (m m' : M A) (k k' : A -> M B) (w : world) :
  m w = m' w -> (forall a w1, k a w1 = k' a w1) ->
  (m ≫= k) w = (m' ≫= k') w.
Proof.
  intros Em Ek. unfold mbind, M_bind, bind. rewrite Em.
  destruct (m' w) as [[a|e] w1]; [apply Ek | reflexivity].
Qed.

Lemma for_each_issue {A : Type} (f : A -> M unit) (plan : A -> list call)
    (l : list A) (w : world) :
  (forall x w1, f x w1 = issue (plan x) w1) ->
  for_each l f w = issue (flat_map plan l) w.
Proof.
  intros Hf. revert w. induction l as [|x l IH]; intros w; simpl;
    [reflexivity|].
  rewrite issue_app. apply bind_ext; [apply Hf | intros _ w1; apply IH].
Qed.

Lemma update_issue (r : repo_name) (id : string) (kw : list field)
    (w : world) :
  (get_session true ≫= fun s => repo_update r s id kw) w
  = issue [Update r id kw] w.
Proof.
  unfold issue. simpl. unfold_monad. simpl.
  destruct (repo _ _) as [[[]|e] d]; reflexivity.
Qed.

Lemma update_then_issue (r : repo_name) (id : string) (kw : list field)
    (k : M unit) (cs : list call) (w : world) :
  (forall w1, k w1 = issue cs w1) ->
  (get_session true ≫= fun s => repo_update r s id kw;; k) w
  = issue (Update r id kw :: cs) w.
Proof.
  intros Hk. unfold issue. simpl. unfold_monad. simpl.
  destruct (repo _ _) as [[[]|e] d]; simpl; [apply Hk | reflexivity].
Qed.

Lemma walk_member (st : status) (m : Member) (w : world) :
  _mark_member_status m st w = issue (member_plan st m) w.
Proof. apply update_issue. Qed.

Lemma walk_hm (st : status) (hm : HealthMonitor) (w : world) :
  _mark_hm_status hm st w = issue (hm_plan st hm) w.
Proof. apply update_issue. Qed.

Lemma walk_l7rule (st : status) (r : L7Rule) (w : world) :
  _mark_l7rule_status r st w = issue (l7rule_plan st r) w.
Proof. apply update_issue. Qed.

Lemma walk_pool (st : status) (pool : Pool) (w : world) :
  _mark_pool_status pool st w = issue (pool_plan st pool) w.
Proof.
  unfold _mark_pool_status, pool_plan. apply update_then_issue. intros w1.
  rewrite issue_app. apply bind_ext.
  - destruct (health_monitor pool); [apply walk_hm | reflexivity].
  - intros _ w2. apply for_each_issue. intros; apply walk_member.
Qed.

Lemma walk_l7policy (st : status) (p : L7Policy) (w : world) :
  _mark_l7policy_status p st w = issue (l7policy_plan st p) w.
Proof.
  unfold _mark_l7policy_status, l7policy_plan. apply update_then_issue.
  intros w1. rewrite issue_app. apply bind_ext.
  - apply for_each_issue. intros; apply walk_l7rule.
  - intros _ w2. destruct (redirect_pool p); [apply walk_pool | reflexivity].
Qed.

Lemma walk_listener (st : status) (l : Listener) (w : world) :
  _mark_listener_status l st w = issue (listener_plan st l) w.
Proof.
  unfold _mark_listener_status, listener_plan. apply update_then_issue.
  intros w1. rewrite issue_app. apply bind_ext.
  - apply for_each_issue. intros; apply walk_l7policy.
  - intros _ w2. destruct (default_pool l); [apply walk_pool | reflexivity].
Qed.

(** ** What a sequence of calls comes to *)

Lemma after_calls_nil (w : world) : after_calls [] (store w) w = w.
Proof.
  destruct w. unfold after_calls. simpl. rewrite app_nil_r. reflexivity.
Qed.

Lemma after_calls_app (made made' : list call) (d d' : DB) (w : world) :
  after_calls made' d' (after_calls made d w) = after_calls (made ++ made') d' w.
Proof.
  unfold after_calls. simpl.
  rewrite trace_from_app, length_app, <- app_assoc. f_equal. lia.
Qed.

Lemma issue_one (c : call) (w : world) :
  issue [c] w
  = (match fst (repo c (store w)) with
     | Ok _ => Ok tt
     | Raise e => Raise e
     end, after_call c w).
Proof.
  unfold issue, after_call. simpl. unfold_monad. simpl.
  destruct (repo c (store w)) as [[a|e] d]; reflexivity.
Qed.

Lemma issue_exact (cs : list call) (w : world) :
  issue cs w
  = (let '(r, d, made) := issue_outcome cs (store w) in
     (r, after_calls made d w)).
Proof.
  revert w. induction cs as [|c cs IH]; intros w.
  - simpl. rewrite after_calls_nil. reflexivity.
  - change (c :: cs) with ([c] ++ cs). rewrite issue_app.
    unfold mbind, M_bind, bind. rewrite issue_one. simpl.
    destruct (repo c (store w)) as [[a|e] d] eqn:Hr; simpl.
    + rewrite IH. unfold after_call. simpl. rewrite Hr. simpl.
      destruct (issue_outcome cs d) as [[r d'] made].
      unfold after_calls. simpl. rewrite <- app_assoc. simpl.
      do 2 f_equal. lia.
    + unfold after_call, after_calls. rewrite Hr. reflexivity.
Qed.

Lemma issue_tolerating_app (tolerated : exn -> bool) (cs cs' : list call)
    (w : world) :
  issue_tolerating tolerated (cs ++ cs') w
  = (issue_tolerating tolerated cs;; issue_tolerating tolerated cs') w.
Proof.
  revert w. induction cs as [|c cs IH]; intros w.
  - reflexivity.
  - unfold issue_tolerating in *. simpl.
    unfold mbind, M_bind, bind in *.
    match goal with
    | |- context [try_except ?m ?h w] => destruct (try_except m h w) as [[[]|e] w1]
    end; [apply IH | reflexivity].
Qed.

Lemma issue_tolerating_one (tolerated : exn -> bool) (c : call) (w : world) :
  issue_tolerating tolerated [c] w
  = (tolerating tolerated (fst (repo c (store w))), after_call c w).
Proof.
  unfold issue_tolerating, after_call, tolerating. simpl. unfold_monad. simpl.
  destruct (repo c (store w)) as [[a|e] d]; simpl; [reflexivity|].
  destruct (tolerated e); reflexivity.
Qed.

Lemma issue_tolerating_exact (tolerated : exn -> bool) (cs : list call)
    (w : world) :
  issue_tolerating tolerated cs w
  = (let '(r, d, made) := issue_tolerating_outcome tolerated cs (store w) in
     (r, after_calls made d w)).
Proof.
  revert w. induction cs as [|c cs IH]; intros w.
  - simpl. rewrite after_calls_nil. reflexivity.
  - change (c :: cs) with ([c] ++ cs). rewrite issue_tolerating_app.
    unfold mbind, M_bind, bind. rewrite issue_tolerating_one.
    unfold tolerating. simpl.
    destruct (repo c (store w)) as [[a|e] d] eqn:Hr; simpl;
      [|destruct (tolerated e); simpl].
    1, 2: rewrite IH; unfold after_call; simpl; rewrite Hr; simpl;
      destruct (issue_tolerating_outcome tolerated cs d) as [[r d'] made];
      unfold after_calls; simpl; rewrite <- app_assoc; simpl;
      do 2 f_equal; lia.
    unfold after_call, after_calls. rewrite Hr. reflexivity.
Qed.

Lemma revert_listeners_exact (ls : list Listener) (w : world) :
  for_each ls
    (fun listener =>
       try_except (_mark_listener_status listener ERROR) (fun _ => ret tt)) w
  = (let '(d, made) := revert_listeners_outcome ls (store w) in
     (Ok tt, after_calls made d w)).
Proof.
  revert w. induction ls as [|l ls IH]; intros w.
  - simpl. rewrite after_calls_nil. reflexivity.
  - cbn [for_each revert_listeners_outcome].
    unfold mbind at 1, M_bind at 1, bind at 1. unfold try_except at 1.
    rewrite walk_listener, issue_exact.
    destruct (issue_outcome (listener_plan ERROR l) (store w))
      as [[r d1] made1].
    assert (E : for_each ls
                  (fun listener =>
                     try_except (_mark_listener_status listener ERROR)
                       (fun _ => ret tt)) (after_calls made1 d1 w)
                = (let '(d, made) := revert_listeners_outcome ls d1 in
                   (Ok tt, after_calls (made1 ++ made) d w))).
    { rewrite IH. cbn [store after_calls].
      destruct (revert_listeners_outcome ls d1).
      rewrite after_calls_app. reflexivity. }
    destruct r as [[]|e]; cbn [ret]; rewrite E;
      destruct (revert_listeners_outcome ls d1); reflexivity.
Qed.

Lemma bind_from {A B : Type} (m m' : M A) (k k' : A -> M B) (w w1 : world) :
  m w = m' w1 -> (forall a w2, k a w2 = k' a w2) ->
  (m ≫= k) w = (m' ≫= k') w1.
Proof.
  intros Em Ek. unfold mbind, M_bind, bind. rewrite Em.
  destruct (m' w1) as [[a|e] w2]; [apply Ek | reflexivity].
Qed.

(** The reading walk: the read of the load balancer, then what follows it
    from the world the read leaves. *)
Lemma read_then_walk (loadbalancer : dict) (db_lb : LoadBalancer)
    (walk : LoadBalancer -> M unit) (w : world) :
  fst (repo (Get loadbalancer_repo (LOADBALANCER_ID loadbalancer)) (store w))
  = Ok (Some db_lb) ->
  (get_session true ≫= fun s =>
     repo_get loadbalancer_repo s (LOADBALANCER_ID loadbalancer)
     ≫= fun db_lb =>
          match db_lb with
          | None => raise AttributeError
          | Some db_lb => walk db_lb
          end) w
  = walk db_lb
      (after_calls [Get loadbalancer_repo (LOADBALANCER_ID loadbalancer)]
         (store w) w).
Proof.
  intros Hget.
  pose proof (get_readonly loadbalancer_repo (LOADBALANCER_ID loadbalancer)
                (store w)) as Hro.
  unfold mbind, M_bind, bind, get_session, repo_get, repo_call, working.
  simpl.
  destruct (repo _ (store w)) as [o d]. simpl in *. subst o d. reflexivity.
Qed.

Lemma MarkLBActiveInDB_execute_exact (loadbalancer : dict)
    (db_lb : LoadBalancer) (w : world) :
  fst (repo (Get loadbalancer_repo (LOADBALANCER_ID loadbalancer)) (store w))
  = Ok (Some db_lb) ->
  let lb_id := LOADBALANCER_ID loadbalancer in
  let '(r, d, made) := issue_outcome (lb_plan ACTIVE lb_id db_lb) (store w) in
  MarkLBActiveInDB_execute true loadbalancer w
  = (r, after_calls (Get loadbalancer_repo lb_id :: made) d w).
Proof.
  intros Hget. cbv zeta.
  set (lb_id := LOADBALANCER_ID loadbalancer) in *.
  set (get := Get loadbalancer_repo lb_id) in *.
  set (w1 := after_calls [get] (store w) w).
  assert (E : MarkLBActiveInDB_execute true loadbalancer w
              = issue (lb_plan ACTIVE lb_id db_lb) w1).
  { unfold MarkLBActiveInDB_execute, lb_plan. rewrite issue_app.
    apply bind_from.
    - rewrite (read_then_walk loadbalancer db_lb _ w Hget).
      apply for_each_issue. intros; apply walk_listener.
    - intros _ w2. apply update_issue. }
  rewrite E, issue_exact. simpl.
  destruct (issue_outcome (lb_plan ACTIVE lb_id db_lb) (store w))
    as [[r d] made].
  unfold w1. rewrite after_calls_app. reflexivity.
Qed.

(** C4, as amended.  With [mark_subobjects] set and the load balancer
    found, every update of the walk is a repository call of its own, made
    through a session of its own.  In the ACTIVE direction ([execute])
    nothing is caught: the result, the store and the trace are those of
    issuing the plan of the tree call by call, so the first update that
    raises is the last call made and its exception reaches the caller.  In
    the ERROR direction ([revert]) each listener's subtree is walked inside
    its own [try/except]: the first failure under a listener ends the walk
    of that listener's subtree, the walk goes on with the next listener,
    the load balancer's own update is attempted in any case, and [revert]
    does not raise. *)
Theorem cascading_walk (loadbalancer : dict) (db_lb : LoadBalancer)
    (result : task_result unit) (w : world) :
  fst (repo (Get loadbalancer_repo (LOADBALANCER_ID loadbalancer)) (store w))
  = Ok (Some db_lb) ->
  let lb_id := LOADBALANCER_ID loadbalancer in
  let get := Get loadbalancer_repo lb_id in
  let mark := Update loadbalancer_repo lb_id [provisioning_status ERROR] in
  (let '(r, d, made) := issue_outcome (lb_plan ACTIVE lb_id db_lb) (store w) in
   MarkLBActiveInDB_execute true loadbalancer w
   = (r, after_calls (get :: made) d w))
  /\ (let '(d, made) := revert_listeners_outcome (listeners db_lb) (store w) in
      MarkLBActiveInDB_revert true loadbalancer result w
      = (Ok tt, after_calls (get :: made ++ [mark]) (snd (repo mark d)) w)).
Proof.
  intros Hget. cbv zeta.
  split; [exact (MarkLBActiveInDB_execute_exact loadbalancer db_lb w Hget)|].
  set (lb_id := LOADBALANCER_ID loadbalancer) in *.
  set (get := Get loadbalancer_repo lb_id) in *.
  set (w1 := after_calls [get] (store w) w).
  unfold MarkLBActiveInDB_revert.
  unfold mbind at 1, M_bind at 1, bind at 1.
  rewrite (read_then_walk loadbalancer db_lb _ w Hget).
  fold lb_id get w1. rewrite revert_listeners_exact. simpl.
  destruct (revert_listeners_outcome (listeners db_lb) (store w))
    as [d made].
  unfold mark_loadbalancer_prov_status_error. unfold_monad. simpl.
  destruct (repo _ d) as [[[]|e] d']; simpl.
  all: f_equal; unfold after_calls; simpl.
  all: rewrite trace_from_app, <- !app_assoc; simpl.
  all: rewrite length_app; simpl.
  all: do 2 f_equal; lia.
Qed.

(** ** Reverting a task whose own execute failed *)

(** C1, as amended.  When the engine passes the failure marker: a [revert]
    that declares the [result] parameter (CreateAmphoraInDB, the three
    amphora role tasks, MarkAmphoraAllocatedInDB, MarkAmphoraBootingInDB
    and the seven quota tasks) makes no repository call, opens no session
    and leaves the world as it was; a [revert] that declares only the
    task's inputs (the seven delete tasks, MarkLBActiveInDB and
    MarkLBAndListenersActiveInDB) does not look at the marker and does
    what it does on any other result.  For DeleteListenerInDB, whose
    [revert] makes no call at all, that is nothing; for
    DeleteHealthMonitorInDB it is the update of the health monitor to
    ERROR, made through a fresh session, its exception not caught. *)
Theorem revert_after_own_failure_is_noop (rc : revert_call) (w : world) :
  given_failure rc = true ->
  (takes_result rc = true -> run_revert rc w = (Ok tt, w))
  /\ (takes_result rc = false ->
      forall result, run_revert rc w = run_revert (with_result result rc) w)
  /\ match rc with
     | Revert_DeleteListenerInDB _ _ => run_revert rc w = (Ok tt, w)
     | Revert_DeleteHealthMonitorInDB health_mon _ =>
         let c :=
           Update health_mon_repo (HEALTHMONITOR_ID health_mon)
             [provisioning_status ERROR] in
         run_revert rc w = (fst (repo c (store w)), after_call c w)
     | _ => True
     end.
Proof.
  intros Hf. split; [|split].
  - destruct rc; simpl in *; try discriminate; intros _;
      match goal with
      | [ H : is_failure ?r = true |- _ ] => destruct r; try discriminate
      end; reflexivity.
  - destruct rc; simpl; try discriminate; reflexivity.
  - destruct rc; try exact I; simpl.
    + unfold DeleteHealthMonitorInDB_revert, after_call. unfold_monad. simpl.
      destruct (repo _ (store w)) as [[[]|e] d]; reflexivity.
    + reflexivity.
Qed.

(** ** Reverting the amphora role *)

Lemma role_revert (amphora_id : string) (w : world) :
  exists w',
    _MarkAmphoraRoleAndPriorityInDB__revert (Result tt) amphora_id w
    = (Ok tt, w')
    /\ log w' =
       log w ++ trace_from (next_sid w)
                  [Update amphora_repo amphora_id
                     [role None; vrrp_priority None]]
    /\ store w' =
       snd (repo (Update amphora_repo amphora_id
                    [role None; vrrp_priority None]) (store w)).
Proof.
  unfold _MarkAmphoraRoleAndPriorityInDB__revert. unfold_monad. simpl.
  destruct (repo _ _) as [[[]|e] d']; simpl; eexists; repeat split.
Qed.

(** C8.  Reverting MarkAmphoraMasterInDB, MarkAmphoraBackupInDB or
    MarkAmphoraStandAloneInDB after a successful [execute] never raises and
    makes exactly one repository call: one update of the amphora that sets
    both [role] and [vrrp_priority] to [None].  The store afterwards is what
    that update leaves. *)
Theorem role_revert_clears_role_and_priority (amphora : dict) (w : world) :
  let cleared :=
    Update amphora_repo (ID amphora) [role None; vrrp_priority None] in
  let done (revert : task_result unit -> dict -> M unit) :=
    exists w',
      revert (Result tt) amphora w = (Ok tt, w')
      /\ log w' = log w ++ trace_from (next_sid w) [cleared]
      /\ store w' = snd (repo cleared (store w)) in
  done MarkAmphoraMasterInDB_revert
  /\ done MarkAmphoraBackupInDB_revert
  /\ done MarkAmphoraStandAloneInDB_revert.
Proof.
  cbv zeta. repeat split; apply role_revert.
Qed.

(** ** NOT-FOUND on delete *)

(** C6, as amended.  DeleteHealthMonitorInDB.execute completes successfully
    and leaves the store as it was when the repository finds no health
    monitor to delete, and so does disabling the health supervision of an
    amphora that has no AmphoraHealth record.  The [execute] of the member,
    listener, pool, L7 policy and L7 rule delete tasks has no such handler:
    whatever the delete raises, NOT-FOUND included, reaches the caller. *)
Theorem delete_not_found (w : world) :
  (forall health_mon,
     repo (Delete health_mon_repo (HEALTHMONITOR_ID health_mon)) (store w)
     = (Raise NoResultFound, store w) ->
     exists w',
       DeleteHealthMonitorInDB_execute health_mon w = (Ok tt, w')
       /\ store w' = store w /\ txns w' = txns w)
  /\ (forall amphora e,
        e = NoResultFound \/ e = UnmappedInstanceError ->
        repo (Delete amp_health_repo (ID amphora)) (store w)
        = (Raise e, store w) ->
        exists w',
          DisableAmphoraHealthMonitoring_execute amphora w = (Ok tt, w')
          /\ store w' = store w /\ txns w' = txns w)
  /\ (forall d e d',
        (repo (Delete member_repo (MEMBER_ID d)) (store w) = (Raise e, d') ->
         exists w', DeleteMemberInDB_execute d w = (Raise e, w'))
        /\ (repo (Delete listener_repo (LISTENER_ID d)) (store w)
            = (Raise e, d') ->
            exists w', DeleteListenerInDB_execute d w = (Raise e, w'))
        /\ (repo (Delete pool_repo (ID d)) (store w) = (Raise e, d') ->
            exists w', DeletePoolInDB_execute (ID d) w = (Raise e, w'))
        /\ (repo (Delete l7policy_repo (L7POLICY_ID d)) (store w)
            = (Raise e, d') ->
            exists w', DeleteL7PolicyInDB_execute d w = (Raise e, w'))
        /\ (repo (Delete l7rule_repo (L7RULE_ID d)) (store w)
            = (Raise e, d') ->
            exists w', DeleteL7RuleInDB_execute d w = (Raise e, w'))).
Proof.
  split; [|split].
  - intros health_mon H. unfold DeleteHealthMonitorInDB_execute.
    unfold_monad. simpl. rewrite H. simpl. eexists. repeat split.
  - intros amphora e He H.
    unfold DisableAmphoraHealthMonitoring_execute, _delete_from_amp_health.
    unfold_monad. simpl. rewrite H. simpl.
    destruct He as [-> | ->]; eexists; repeat split.
  - intros d e d'. repeat split; intros H;
      unfold DeleteMemberInDB_execute, DeleteListenerInDB_execute,
        DeletePoolInDB_execute, DeleteL7PolicyInDB_execute,
        DeleteL7RuleInDB_execute;
      unfold_monad; simpl; rewrite H; simpl; eexists; reflexivity.
Qed.

(** ** Operating status on the ACTIVE transition *)

(** C5, as amended.  The mark-ACTIVE tasks of the health monitor, the L7
    policy and the L7 rule read the stored entity and set, in one update,
    [provisioning_status] to ACTIVE and [operating_status] to ONLINE when
    the stored [enabled] flag is set and to OFFLINE otherwise.  The
    mark-ACTIVE tasks of the member, the pool and the load balancer make one
    update that sets [provisioning_status] alone. *)
Theorem mark_active_derives_operating_status (d : dict) (w : world) :
  let derived (enabled : bool) :=
    [provisioning_status ACTIVE;
     operating_status (if enabled then ONLINE else OFFLINE)] in
  let traced (m : M unit) (cs : list call) :=
    exists r w', m w = (r, w')
      /\ log w' = log w ++ trace_from (next_sid w) cs in
  (forall hm,
     fst (repo (Get health_mon_repo (HEALTHMONITOR_ID d)) (store w))
     = Ok (Some hm) ->
     traced (MarkHealthMonitorActiveInDB_execute d)
       [Get health_mon_repo (HEALTHMONITOR_ID d);
        Update health_mon_repo (HEALTHMONITOR_ID d)
          (derived (hm_enabled hm))])
  /\ (forall p,
        fst (repo (Get l7policy_repo (L7POLICY_ID d)) (store w))
        = Ok (Some p) ->
        traced (MarkL7PolicyActiveInDB_execute d)
          [Get l7policy_repo (L7POLICY_ID d);
           Update l7policy_repo (L7POLICY_ID d)
             (derived (l7policy_enabled p))])
  /\ (forall r,
        fst (repo (Get l7rule_repo (L7RULE_ID d)) (store w)) = Ok (Some r) ->
        traced (MarkL7RuleActiveInDB_execute d)
          [Get l7rule_repo (L7RULE_ID d);
           Update l7rule_repo (L7RULE_ID d) (derived (l7rule_enabled r))])
  /\ traced (MarkMemberActiveInDB_execute d)
       [Update member_repo (MEMBER_ID d) [provisioning_status ACTIVE]]
  /\ traced (MarkPoolActiveInDB_execute (ID d))
       [Update pool_repo (ID d) [provisioning_status ACTIVE]]
  /\ traced (MarkLBActiveInDB_execute false d)
       [Update loadbalancer_repo (LOADBALANCER_ID d)
          [provisioning_status ACTIVE]].
Proof.
  cbv zeta. repeat split.
  1-3: intros x Hget;
    unfold MarkHealthMonitorActiveInDB_execute,
      MarkL7PolicyActiveInDB_execute, MarkL7RuleActiveInDB_execute;
    unfold_monad; simpl;
    match goal with
    | |- context [repo (Get ?r ?id) ?s] =>
        pose proof (get_readonly r id s) as Hro;
        destruct (repo (Get r id) s) as [o s'] eqn:Hr
    end; simpl in Hget, Hro; subst o s'; simpl; clear Hr;
    match goal with
    | |- context [repo ?c ?s] => destruct (repo c s) as [[[]|e] s'']
    end; do 2 eexists;
    (split; [reflexivity | simpl; rewrite <- app_assoc; reflexivity]).
  all: unfold MarkMemberActiveInDB_execute, MarkPoolActiveInDB_execute,
    MarkLBActiveInDB_execute; unfold_monad; simpl;
    destruct (repo _ _) as [[[]|e] s'']; do 2 eexists;
    (split; [reflexivity | reflexivity]).
Qed.

(** ** The quota ledger: forward decrements *)

Lemma quota_execute_own_failure (qc : quota_execute_call) (w : world)
    (e : exn) (d' : DB) :
  repo (own_decrement qc) (working (next_session false w) w) = (Raise e, d') ->
  exists w',
    run_quota_execute qc w = (Raise e, w')
    /\ log w' =
       log w ++ [ECall (next_session false w) (own_decrement qc);
                 ERollback (next_session false w)].
Proof.
  intros H.
  destruct qc; simpl in *; unfold_quota_execute; unfold_monad; simpl in *;
    rewrite H; simpl; eexists; (split; [reflexivity|]); simpl;
    rewrite <- app_assoc; reflexivity.
Qed.

(** C7.  For every forward quota-decrement task: when the decrement made in
    the exclusive-locking session raises, the session is rolled back and
    [execute] raises the same exception; and whenever [execute] raises, for
    whatever reason, the session has been rolled back last and the store is
    what it was before, counters included. *)
Theorem quota_decrement_failure_rolls_back (qc : quota_execute_call)
    (w : world) :
  let ls := next_session false w in
  (forall e d',
     repo (own_decrement qc) (working ls w) = (Raise e, d') ->
     exists w',
       run_quota_execute qc w = (Raise e, w')
       /\ log w' = log w ++ [ECall ls (own_decrement qc); ERollback ls])
  /\ (forall e w',
        run_quota_execute qc w = (Raise e, w') ->
        store w' = store w /\ txns w' !! sid ls = None
        /\ exists l, log w' = log w ++ l /\ last l = Some (ERollback ls)).
Proof.
  cbv zeta. split.
  - intros e d'. apply quota_execute_own_failure.
  - intros e w'.
    destruct qc; simpl; unfold_quota_execute; unfold_monad; norm.
    5: destruct (HM child_count >? 0)%Z;
       destruct (member child_count >? 0)%Z; norm.
    all: repeat match goal with
         | |- context [match ?x with Some _ => _ | None => _ end] =>
             is_var x; destruct x; norm
         | |- context [match l7rules ?p with [] => _ | _ :: _ => _ end] =>
             destruct (l7rules p); norm
         | _ => case_repo
         end.
    all: intros E; inversion E; subst; clear E; norm; try discriminate.
    all: split; [reflexivity|]; split; [reflexivity|].
    all: rewrite <- ?app_assoc; simpl.
    all: eexists; split; reflexivity.
Qed.

(** ** The quota ledger: deleting a pool *)

Lemma pool_execute (p : string) (cc : pool_child_count) (w : world) :
  let ls := next_session false w in
  exists w' evs,
    match transact (pool_decrements p cc) (working ls w) with
    | Ok d =>
        DecrementPoolQuota_execute p cc w = (Ok tt, w') /\ store w' = d
        /\ evs = map (ECall ls) (pool_decrements p cc) ++ [ECommit ls]
    | Raise e =>
        DecrementPoolQuota_execute p cc w = (Raise e, w')
        /\ store w' = store w
    end
    /\ txns w' !! sid ls = None
    /\ log w' = log w ++ evs
    /\ Forall (fun ev => session_of ev = ls) evs
    /\ length (List.filter is_commit evs) <= 1
    /\ calls_of evs `prefix_of` pool_decrements p cc.
Proof.
  cbv zeta.
  unfold DecrementPoolQuota_execute, transact, pool_decrements, next_session.
  unfold_monad. simpl.
  destruct (HM cc >? 0)%Z; destruct (member cc >? 0)%Z; simpl.
  all: repeat case_repo.
  all: do 2 eexists.
  all: split; [repeat split|].
  all: split; [norm; reflexivity|].
  all: split; [rewrite <- ?app_assoc; simpl; reflexivity|].
  all: split; [repeat constructor|].
  all: split; [simpl; lia|].
  all: eexists; reflexivity.
Qed.

(** C9.  DecrementPoolQuota.execute makes the pool's decrement and those of
    its counted children in one exclusive-locking session, with at most one
    commit, as one transaction: when all of them and the commit succeed the
    store is the one they lead to, and otherwise [execute] raises and the
    store is what it was.  The health monitor's decrement is made only for a
    positive count, by one, and the members' only for a positive count, by
    that count. *)
Theorem DecrementPoolQuota_execute_all_or_nothing (p : string)
    (cc : pool_child_count) (w : world) :
  let ls := next_session false w in
  exists w' evs,
    match transact (pool_decrements p cc) (working ls w) with
    | Ok d =>
        DecrementPoolQuota_execute p cc w = (Ok tt, w') /\ store w' = d
        /\ evs = map (ECall ls) (pool_decrements p cc) ++ [ECommit ls]
    | Raise e =>
        DecrementPoolQuota_execute p cc w = (Raise e, w')
        /\ store w' = store w
    end
    /\ txns w' !! sid ls = None
    /\ log w' = log w ++ evs
    /\ Forall (fun ev => session_of ev = ls) evs
    /\ length (List.filter is_commit evs) <= 1
    /\ calls_of evs `prefix_of` pool_decrements p cc
    /\ (forall q, In (DecrementQuota KHealthMonitor p q) (calls_of evs) ->
          (0 < HM cc)%Z /\ q = 1%Z)
    /\ (forall q, In (DecrementQuota KMember p q) (calls_of evs) ->
          (0 < member cc)%Z /\ q = member cc).
Proof.
  cbv zeta.
  destruct (pool_execute p cc w) as (w' & evs & H1 & H2 & H3 & H4 & H5 & H6).
  exists w', evs. repeat (split; [assumption|]).
  assert (Hin : forall c, In c (calls_of evs) -> In c (pool_decrements p cc)).
  { intros c Hc. destruct H6 as [k ->]. apply in_or_app. left. exact Hc. }
  unfold pool_decrements in Hin.
  split; intros q Hq; apply Hin in Hq; simpl in Hq.
  all: destruct (Z.gtb_spec (HM cc) 0); destruct (Z.gtb_spec (member cc) 0);
    simpl in Hq.
  all: repeat match goal with
       | H : _ \/ _ |- _ => destruct H
       | H : False |- _ => destruct H
       | H : DecrementQuota _ _ _ = DecrementQuota _ _ _ |- _ =>
           inversion H; subst; clear H
       end.
  all: split; (lia || reflexivity).
Qed.


(** ** Reverts that cannot raise *)


Lemma never_raises_ret : never_raises (ret tt).
Proof. intros w. exists w. reflexivity. Qed.

Lemma never_raises_swallow (m : M unit) :
  never_raises (try_except m (fun _ => ret tt)).
Proof.
  intros w. unfold try_except. destruct (m w) as [[[]|e] w'];
    eexists; reflexivity.
Qed.

Lemma never_raises_then (m k : M unit) :
  never_raises m -> never_raises k -> never_raises (m;; k).
Proof.
  intros Hm Hk w. unfold mbind, M_bind, bind.
  destruct (Hm w) as [w1 ->]. apply Hk.
Qed.

Lemma never_raises_for_each {A : Type} (l : list A) (f : A -> M unit) :
  (forall x, never_raises (f x)) -> never_raises (for_each l f).
Proof.
  intros Hf. induction l as [|x l IH]; simpl.
  - apply never_raises_ret.
  - apply never_raises_then; [apply Hf | exact IH].
Qed.

(** X15.  A [revert] whose repository calls are all made inside a
    [try: ... except Exception:] ends normally from every state, for every
    repository and every result handed to it. *)
Lemma guarded_revert_never_raises (rc : revert_call) :
  compensation_guarded rc = true -> never_raises (run_revert rc).
Proof.
  destruct rc; simpl; try discriminate; intros Hg.
  all: unfold CreateAmphoraInDB_revert, DeleteMemberInDB_revert,
    DeleteListenerInDB_revert, DeletePoolInDB_revert,
    DeleteL7PolicyInDB_revert, DeleteL7RuleInDB_revert,
    MarkAmphoraMasterInDB_revert, MarkAmphoraBackupInDB_revert,
    MarkAmphoraStandAloneInDB_revert, _MarkAmphoraRoleAndPriorityInDB__revert,
    MarkAmphoraAllocatedInDB_revert, MarkAmphoraBootingInDB_revert,
    MarkLBActiveInDB_revert, MarkLBAndListenersActiveInDB_revert,
    DecrementHealthMonitorQuota_revert, DecrementListenerQuota_revert,
    DecrementLoadBalancerQuota_revert, DecrementMemberQuota_revert,
    DecrementPoolQuota_revert, DecrementL7policyQuota_revert,
    DecrementL7ruleQuota_revert, mark_amphora_status_error,
    mark_loadbalancer_prov_status_error.
  all: try (destruct mark_subobjects; [discriminate|]).
  all: repeat first
    [ apply never_raises_ret
    | apply never_raises_swallow
    | apply never_raises_then
    | apply never_raises_for_each; intros ?
    | match goal with
      | |- never_raises (if ?b then _ else _) => destruct b
      | |- never_raises (match ?r with Result _ => _ | Failure _ => _ end) =>
          destruct r
      end ].
Qed.

Lemma DeleteHealthMonitorInDB_revert_propagates (health_mon : dict)
    (result : task_result unit) (w : world) (e : exn) (d : DB) :
  repo (Update health_mon_repo (HEALTHMONITOR_ID health_mon)
          [provisioning_status ERROR]) (store w) = (Raise e, d) ->
  exists w', DeleteHealthMonitorInDB_revert health_mon result w = (Raise e, w').
Proof.
  intros H. unfold DeleteHealthMonitorInDB_revert. unfold_monad. simpl.
  rewrite H. eexists. reflexivity.
Qed.

(** ** MarkLBAndListenersActiveInDB *)

Lemma flat_map_singleton {A B : Type} (f : A -> B) (l : list A) :
  flat_map (fun x => [f x]) l = map f l.
Proof. induction l as [|x l IH]; simpl; [|rewrite IH]; reflexivity. Qed.

Lemma call_issue (c : call) (w : world) :
  (get_session true ≫= fun s => repo_call s c ≫= fun _ => ret tt) w
  = issue [c] w.
Proof.
  unfold issue. simpl. unfold_monad. simpl.
  destruct (repo _ _) as [[a|e] d]; reflexivity.
Qed.

Lemma lb_and_listeners_issue (loadbalancer_id : option string)
    (listeners : list dict) (w : world) :
  MarkLBAndListenersActiveInDB_execute loadbalancer_id listeners w
  = issue (lb_and_listeners_plan loadbalancer_id listeners) w.
Proof.
  unfold MarkLBAndListenersActiveInDB_execute, lb_and_listeners_plan.
  cbv zeta. rewrite issue_app. apply bind_ext.
  - destruct (truthy (if truthy loadbalancer_id then _ else _));
      [apply update_issue | reflexivity].
  - intros _ w1. rewrite <- flat_map_singleton. apply for_each_issue.
    intros x w2. rewrite <- call_issue. unfold_monad. simpl.
    destruct (repo _ _) as [[[]|e] d]; reflexivity.
Qed.

End Properties.

(** * Further properties *)

Section FurtherProperties.

Context {R : Repository} {C : Constants}.

#[local] Existing Instances M_ret M_bind M_throw.

Ltac unfold_monad :=
  unfold try_except, mbind, M_bind, bind, mret, M_ret, ret, mthrow, M_throw,
    raise, repo_update, repo_delete, repo_get, decrement_quota,
    check_quota_met, repo_call, get_session, commit, rollback, add_event,
    working in *.

Ltac norm :=
  simpl in *;
  rewrite ?lookup_insert_eq, ?lookup_delete_eq, ?insert_insert_eq in *;
  simpl in *.

Ltac case_repo :=
  match goal with
  | |- context [repo (Get ?r ?id) ?d] =>
      let a := fresh "a" in
      let d' := fresh "d" in
      let H := fresh "Hrepo" in
      let Hro := fresh "Hro" in
      pose proof (get_readonly r id d) as Hro;
      destruct (repo (Get r id) d) as [[a|a] d'] eqn:H;
      simpl in Hro; subst d'; norm
  | |- context [repo ?c ?d] =>
      let a := fresh "a" in
      let d' := fresh "d" in
      let H := fresh "Hrepo" in
      destruct (repo c d) as [[a|a] d'] eqn:H; norm
  | |- context [commit_fault ?d] =>
      let e := fresh "e" in
      let H := fresh "Hcommit" in
      destruct (commit_fault d) as [e|] eqn:H; norm
  end.

(** ** Absent records *)

(** X1.  Disabling the health supervision of an amphora
    ([DisableAmphoraHealthMonitoring.execute]) and marking its health
    record busy ([MarkAmphoraHealthBusy.execute]) each make one call
    through one fresh autocommit session.  [NoResultFound] and
    [UnmappedInstanceError] from that call end the task normally; any
    other exception reaches the caller; what the call did to the store
    stays in either case. *)
Theorem amphora_health_absent_record (amphora : dict) (w : world) :
  let ran (m : M unit) (c : call) :=
    m w = (tolerating record_absent (fst (repo c (store w))), after_call c w)
  in
  ran (DisableAmphoraHealthMonitoring_execute amphora)
    (Delete amp_health_repo (ID amphora))
  /\ ran (MarkAmphoraHealthBusy_execute amphora)
       (Update amp_health_repo (ID amphora) [busy true]).
Proof.
  cbv zeta. unfold after_call. split.
  all: unfold DisableAmphoraHealthMonitoring_execute, _delete_from_amp_health,
    MarkAmphoraHealthBusy_execute, _mark_amp_health_busy; unfold_monad; simpl.
  all: destruct (repo _ _) as [[[]|[]] d]; reflexivity.
Qed.

(** X2.  [DeleteHealthMonitorInDB.execute] makes one delete through one
    fresh autocommit session and takes [NoResultFound] alone:
    [UnmappedInstanceError], which the amphora health helpers take, and
    every other exception of the delete reach the caller. *)
Theorem DeleteHealthMonitorInDB_execute_outcome (health_mon : dict)
    (w : world) :
  let c := Delete health_mon_repo (HEALTHMONITOR_ID health_mon) in
  DeleteHealthMonitorInDB_execute health_mon w
  = (tolerating only_no_result_found (fst (repo c (store w))),
     after_call c w).
Proof.
  cbv zeta. unfold after_call, DeleteHealthMonitorInDB_execute. unfold_monad. simpl.
  destruct (repo _ _) as [[[]|[]] d]; reflexivity.
Qed.

(** ** One call per amphora *)

Lemma spec_issue_tolerating (tolerated : exn -> bool) (cs : list call)
    (w : world) :
  spec (issue_tolerating tolerated cs) w (issued_tolerating tolerated cs w).
Proof.
  revert w. induction cs as [|c cs IH]; intros w.
  - apply spec_ret. exists []. simpl. rewrite app_nil_r. repeat split.
  - unfold issue_tolerating. simpl. apply spec_bind.
    intros r w1 E. unfold_monad. simpl in E.
    assert (Hnext :
      spec (issue_tolerating tolerated cs)
        {| store := snd (repo c (store w)); txns := txns w;
           next_sid := S (next_sid w);
           log := log w ++ [ECall (next_session true w) c] |}
        (issued_tolerating tolerated (c :: cs) w)).
    { eapply spec_weaken; [apply IH|]. intros r' w'. simpl.
      intros (made & Hl & Hn & Hr'). exists (c :: made). simpl in *.
      split; [rewrite Hl, <- app_assoc; reflexivity|].
      split; [lia|].
      destruct r' as [[]|e].
      - rewrite Hr'. reflexivity.
      - destruct Hr' as (Ht & pre & c' & post & -> & -> & Hd).
        split; [exact Ht|].
        exists (c :: pre), c', post. repeat split. exact Hd. }
    destruct (repo c (store w)) as [[a|e] d] eqn:Hr; simpl in E.
    + inversion E; subst; clear E. exact Hnext.
    + destruct (tolerated e) eqn:Ht; inversion E; subst; clear E.
      * exact Hnext.
      * exists [c]. simpl. repeat split; [exact Ht|].
        exists [], c, cs. repeat split.
        exists (store w). rewrite Hr. reflexivity.
Qed.

Lemma for_each_issue_tolerating {A : Type} (tolerated : exn -> bool)
    (f : A -> M unit) (per : A -> call) (l : list A) (w : world) :
  (forall x w1,
     f x w1
     = try_except (get_session true ≫= fun s => repo_call s (per x);; ret tt)
         (fun e => if tolerated e then ret tt else raise e) w1) ->
  for_each l f w = issue_tolerating tolerated (map per l) w.
Proof.
  intros Hf. revert w. induction l as [|x l IH]; intros w; [reflexivity|].
  unfold issue_tolerating in *. simpl.
  apply bind_ext; [apply Hf | intros _ w1; apply IH].
Qed.

Lemma read_then_each (loadbalancer : dict) (each : LoadBalancer -> M unit)
    (per : Amphora -> call)
    (after : list call -> world -> outcome unit -> world -> Prop)
    (w : world) :
  (forall db_lb w1, spec (each db_lb) w1 (after (map per (amphorae db_lb)) w1)) ->
  per_amphora loadbalancer
    (get_session true ≫= fun s =>
       repo_get loadbalancer_repo s (LOADBALANCER_ID loadbalancer)
       ≫= fun db_lb =>
            match db_lb with
            | None => raise AttributeError
            | Some db_lb => each db_lb
            end)
    per after w.
Proof.
  intros Heach. unfold per_amphora. cbv zeta.
  unfold mbind, M_bind, bind, get_session, repo_get, repo_call, working.
  simpl.
  pose proof (get_readonly loadbalancer_repo (LOADBALANCER_ID loadbalancer)
                (store w)) as Hro.
  destruct (repo _ (store w)) as [[[db_lb|]|e] d]; simpl in *; subst d;
    try reflexivity.
  match goal with
  | |- context [each db_lb ?w1] =>
      destruct (each db_lb w1) as [r w'] eqn:E; exists r, w';
      split; [reflexivity | exact (Heach db_lb w1 r w' E)]
  end.
Qed.

Lemma spec_issue_exactly (cs : list call) (w : world) :
  spec (issue cs) w (issued_exactly cs w).
Proof.
  intros r w' E. rewrite issue_exact in E. unfold issued_exactly.
  destruct (issue_outcome cs (store w)) as [[r0 d] made].
  inversion E. split; reflexivity.
Qed.

Lemma spec_issue_tolerating_exactly (tolerated : exn -> bool)
    (cs : list call) (w : world) :
  spec (issue_tolerating tolerated cs) w
    (issued_tolerating_exactly tolerated cs w).
Proof.
  intros r w' E. rewrite issue_tolerating_exact in E.
  unfold issued_tolerating_exactly.
  destruct (issue_tolerating_outcome tolerated cs (store w)) as [[r0 d] made].
  inversion E. split; reflexivity.
Qed.

(** X3.  [DisableLBAmphoraeHealthMonitoring.execute] and
    [MarkLBAmphoraeHealthBusy.execute] read the load balancer and then make
    one call per amphora, in the order of [db_lb.amphorae], each through a
    session of its own.  The result, the store and the trace are those of
    issuing these calls with the absent-record exceptions let pass: an
    amphora without a health record does not stop the loop; the first
    exception of another kind is the result, and the call that raised it
    is the last one made.  Without the load balancer the read is the only
    call and the task raises on the attribute access. *)
Theorem lb_amphorae_health (loadbalancer : dict) (w : world) :
  per_amphora loadbalancer
    (DisableLBAmphoraeHealthMonitoring_execute loadbalancer)
    (fun a => Delete amp_health_repo (amphora_id_of a))
    (issued_tolerating_exactly record_absent) w
  /\ per_amphora loadbalancer
       (MarkLBAmphoraeHealthBusy_execute loadbalancer)
       (fun a => Update amp_health_repo (amphora_id_of a) [busy true])
       (issued_tolerating_exactly record_absent) w.
Proof.
  split; apply read_then_each; intros db_lb w1.
  - eapply spec_ext; [|apply spec_issue_tolerating_exactly].
    apply for_each_issue_tolerating.
    intros x w2. unfold _delete_from_amp_health. unfold_monad. simpl.
    destruct (repo _ _) as [[[]|[]] d]; reflexivity.
  - eapply spec_ext; [|apply spec_issue_tolerating_exactly].
    apply for_each_issue_tolerating.
    intros x w2. unfold _mark_amp_health_busy. unfold_monad. simpl.
    destruct (repo _ _) as [[[]|[]] d]; reflexivity.
Qed.

(** X4.  [MarkLBAmphoraeDeletedInDB.execute] reads the load balancer and
    marks its amphorae DELETED one by one, in order, each through a session
    of its own.  No exception is taken: the result, the store and the trace
    are those of issuing the updates call by call, so the first update that
    raises is the last call made, its exception is the result, and the
    later amphorae are not touched.  Without the load balancer the read is
    the only call. *)
Theorem MarkLBAmphoraeDeletedInDB_execute_outcome (loadbalancer : dict)
    (w : world) :
  per_amphora loadbalancer (MarkLBAmphoraeDeletedInDB_execute loadbalancer)
    (fun a => Update amphora_repo (amphora_id_of a) [amp_status DELETED])
    issued_exactly w.
Proof.
  apply read_then_each. intros db_lb w1.
  eapply spec_ext; [|apply spec_issue_exactly].
  rewrite <- flat_map_singleton. apply for_each_issue.
  intros x w2. apply update_issue.
Qed.

(** ** The quota ledger: re-increments *)

(** One check-and-commit attempt in a lock session: its trace, and the
    store it leaves. *)
Lemma spec_attempt (s : session) (n : nat) (k : resource_kind) (p : string)
    (w : world) (Q : outcome unit -> world -> Prop) :
  let ls := {| sid := n; autocommit := false |} in
  (forall w' b,
     attempt ls (CheckQuotaMet k p) b -> log w' = log w ++ b ->
     next_sid w' = next_sid w ->
     store w' = transacted [CheckQuotaMet k p] (working ls w) (store w) ->
     Q (Ok tt) w') ->
  spec
    (try_except (check_quota_met s ls k p;; commit ls)
       (fun _ => rollback ls))
    w Q.
Proof.
  intros ls H r w' E. subst ls. unfold transacted, transact in H.
  unfold_monad; simpl in *.
  destruct (repo _ _) as [[a|e] d] eqn:Hr; simpl in *.
  1: rewrite lookup_insert_eq in E; simpl in E;
     destruct (commit_fault _) as [e'|] eqn:Hc; simpl in E.
  all: inversion E; subst; clear E.
  all: eapply H;
    [ | simpl; rewrite <- ?app_assoc; simpl; reflexivity | reflexivity
      | simpl; rewrite ?lookup_insert_eq; reflexivity ];
    constructor.
Qed.

Lemma spec_fresh_attempt (s : session) (k : resource_kind) (p : string)
    (w : world) (Q : outcome unit -> world -> Prop) :
  let ls := next_session false w in
  (forall w' b,
     attempt ls (CheckQuotaMet k p) b -> log w' = log w ++ b ->
     next_sid w' = S (next_sid w) ->
     store w' = transacted [CheckQuotaMet k p] (working ls w) (store w) ->
     Q (Ok tt) w') ->
  spec
    (get_session false ≫= fun ls =>
       try_except (check_quota_met s ls k p;; commit ls)
         (fun _ => rollback ls))
    w Q.
Proof.
  intros ls H. apply spec_bind, spec_get_session.
  apply (spec_attempt s (next_sid w) k p). cbv zeta.
  intros w' b Hb Hl Hn Hs. exact (H w' b Hb Hl Hn Hs).
Qed.

(** X5.  On a normal result, the [revert] of the health monitor, listener,
    load balancer, member and L7 rule quota tasks returns normally after
    exactly one check-and-commit attempt for its own resource, made in the
    lock session opened second: the check, then a commit, or a rollback
    when the check or the commit raised.  The store is the committed one
    when both went through and the one before otherwise. *)
Theorem quota_revert_single_attempt (project_id : string) (l7rule : dict)
    (w : world) :
  let ls := later_session 1 w in
  let attempted (revert : task_result unit -> M unit) (c : call) :=
    exists w' b,
      revert (Result tt) w = (Ok tt, w')
      /\ log w' = log w ++ b /\ attempt ls c b
      /\ store w' = transacted [c] (working ls w) (store w) in
  attempted (DecrementHealthMonitorQuota_revert project_id)
    (CheckQuotaMet KHealthMonitor project_id)
  /\ attempted (DecrementListenerQuota_revert project_id)
       (CheckQuotaMet KListener project_id)
  /\ attempted (DecrementLoadBalancerQuota_revert project_id)
       (CheckQuotaMet KLoadBalancer project_id)
  /\ attempted (DecrementMemberQuota_revert project_id)
       (CheckQuotaMet KMember project_id)
  /\ attempted (DecrementL7ruleQuota_revert l7rule)
       (CheckQuotaMet KL7Rule (PROJECT_ID l7rule)).
Proof.
  cbv zeta.
  assert (H : forall (k : resource_kind) (p : string),
    exists w' b,
      try_except
        (get_session true ≫= fun session =>
           get_session false ≫= fun lock_session =>
             try_except
               (check_quota_met session lock_session k p;;
                commit lock_session)
               (fun _ => rollback lock_session))
        (fun _ => ret tt) w = (Ok tt, w')
      /\ log w' = log w ++ b
      /\ attempt (later_session 1 w) (CheckQuotaMet k p) b
      /\ store w'
         = transacted [CheckQuotaMet k p] (working (later_session 1 w) w)
             (store w)).
  { intros k p.
    cut (spec
           (try_except
              (get_session true ≫= fun session =>
                 get_session false ≫= fun lock_session =>
                   try_except
                     (check_quota_met session lock_session k p;;
                      commit lock_session)
                     (fun _ => rollback lock_session))
              (fun _ => ret tt)) w
           (fun r w' =>
              r = Ok tt
              /\ exists b,
                   log w' = log w ++ b
                   /\ attempt (later_session 1 w) (CheckQuotaMet k p) b
                   /\ store w'
                      = transacted [CheckQuotaMet k p]
                          (working (later_session 1 w) w) (store w))).
    { intros Hs. apply spec_run in Hs.
      destruct Hs as (r & w' & E & -> & b & Hb).
      exists w', b. split; [exact E | exact Hb]. }
    apply spec_try, spec_bind, spec_get_session, spec_fresh_attempt.
    cbv zeta. intros w' b Hb Hl Hn Hs.
    split; [reflexivity|]. exists b. repeat split; assumption. }
  repeat split; apply H.
Qed.







(** ** The quota ledger: forward decrements *)

Ltac unfold_quota_execute :=
  unfold DecrementHealthMonitorQuota_execute, DecrementListenerQuota_execute,
    DecrementLoadBalancerQuota_execute, DecrementMemberQuota_execute,
    DecrementPoolQuota_execute, DecrementL7policyQuota_execute,
    DecrementL7ruleQuota_execute.

(** X8.  The [execute] of a quota task that decrements one resource is one
    transaction in one lock session: when the decrement and the commit go
    through, the store is the committed working copy and the trace is the
    decrement and the commit; otherwise the exception of the decrement or
    of the commit is raised and the store is as before. *)
Theorem single_decrement_is_a_transaction (qc : quota_execute_call)
    (w : world) :
  single_decrement qc = true ->
  let ls := next_session false w in
  exists w',
    match transact [own_decrement qc] (working ls w) with
    | Ok d =>
        run_quota_execute qc w = (Ok tt, w') /\ store w' = d
        /\ log w' = log w ++ [ECall ls (own_decrement qc); ECommit ls]
    | Raise e =>
        run_quota_execute qc w = (Raise e, w') /\ store w' = store w
    end.
Proof.
  intros Hs. cbv zeta.
  destruct qc; try discriminate; simpl; unfold_quota_execute;
    unfold transact, next_session; unfold_monad; simpl.
  all: repeat case_repo.
  all: eexists; repeat split.
  all: rewrite <- app_assoc; reflexivity.
Qed.

(** X9.  [DecrementL7policyQuota.execute]: the policy's decrement and the
    decrement of its rules (by their number, on the project of the task's
    input, none for a policy without rules or a policy not found) are one
    transaction of the lock session, while the policy is read from the
    committed store in between.  On success the store is what the
    transaction committed; on any failure, the failure of the read
    included, the task raises and the store is as before. *)
Theorem DecrementL7policyQuota_execute_outcome (l7policy : dict)
    (w : world) :
  let ls := next_session false w in
  let own := DecrementQuota KL7Policy (PROJECT_ID l7policy) 1 in
  let get := Get l7policy_repo (L7POLICY_ID l7policy) in
  exists w',
    match fst (repo get (store w)) with
    | Ok db_l7policy =>
        let rules := l7rule_decrements l7policy db_l7policy in
        match transact (own :: rules) (working ls w) with
        | Ok d =>
            DecrementL7policyQuota_execute l7policy w = (Ok tt, w')
            /\ store w' = d
            /\ calls_of (log w') = calls_of (log w) ++ own :: get :: rules
        | Raise e =>
            DecrementL7policyQuota_execute l7policy w = (Raise e, w')
            /\ store w' = store w
        end
    | Raise _ =>
        exists e,
          DecrementL7policyQuota_execute l7policy w = (Raise e, w')
          /\ store w' = store w
    end.
Proof.
  cbv zeta.
  unfold DecrementL7policyQuota_execute, transact, l7rule_decrements,
    next_session.
  unfold_monad. simpl.
  destruct (repo (DecrementQuota KL7Policy (PROJECT_ID l7policy) 1) _)
    as [[a|e] d] eqn:Hown; norm.
  all: pose proof
         (get_readonly l7policy_repo (L7POLICY_ID l7policy) (store w))
    as Hro.
  all: destruct (repo (Get l7policy_repo (L7POLICY_ID l7policy)) (store w))
    as [[[p|]|e'] d'] eqn:Hget; simpl in *; subst d'; norm.
  all: try (destruct (l7rules p); norm).
  all: repeat case_repo.
  all: try (eexists; repeat split; simpl;
            rewrite ?calls_of_app; simpl; rewrite ?app_nil_r, <- ?app_assoc;
            reflexivity).
  all: eexists; eexists; repeat split.
Qed.

(** ** The size of the cascading walk *)

Lemma length_flat_map {A B : Type} (f : A -> list B) (l : list A) :
  length (flat_map f l) = list_sum (map (fun x => length (f x)) l).
Proof.
  induction l as [|x l IH]; simpl; [reflexivity|].
  rewrite length_app, IH. reflexivity.
Qed.

Lemma Forall_flat_map_all {A B : Type} (P : B -> Prop) (f : A -> list B)
    (l : list A) :
  (forall x, Forall P (f x)) -> Forall P (flat_map f l).
Proof.
  intros H. induction l as [|x l IH]; simpl; [constructor|].
  apply Forall_app. split; [apply H | exact IH].
Qed.

Lemma pool_plan_size (st : status) (pool : Pool) :
  length (pool_plan st pool) = pool_nodes pool
  /\ Forall (sets_status st) (pool_plan st pool).
Proof.
  unfold pool_plan, pool_nodes. split.
  - simpl. rewrite length_app, length_flat_map.
    destruct (health_monitor pool); simpl; f_equal.
    all: induction (members pool); simpl; auto.
  - constructor; [eexists _, _; reflexivity|].
    apply Forall_app. split.
    + destruct (health_monitor pool); repeat constructor.
      eexists _, _; reflexivity.
    + apply Forall_flat_map_all. intros m. repeat constructor.
      eexists _, _; reflexivity.
Qed.

Lemma l7policy_plan_size (st : status) (p : L7Policy) :
  length (l7policy_plan st p) = l7policy_nodes p
  /\ Forall (sets_status st) (l7policy_plan st p).
Proof.
  unfold l7policy_plan, l7policy_nodes. split.
  - simpl. rewrite length_app, length_flat_map.
    assert (Hr : list_sum (map (fun x => length (l7rule_plan st x)) (l7rules p))
                 = length (l7rules p))
      by (induction (l7rules p); simpl; auto).
    rewrite Hr.
    destruct (redirect_pool p) as [pool|];
      [rewrite (proj1 (pool_plan_size st pool))|]; simpl; lia.
  - constructor; [eexists _, _; reflexivity|].
    apply Forall_app. split.
    + apply Forall_flat_map_all. intros r. repeat constructor.
      eexists _, _; reflexivity.
    + destruct (redirect_pool p) as [pool|];
        [apply pool_plan_size | constructor].
Qed.

Lemma listener_plan_size (st : status) (l : Listener) :
  length (listener_plan st l) = listener_nodes l
  /\ Forall (sets_status st) (listener_plan st l).
Proof.
  unfold listener_plan, listener_nodes. split.
  - simpl. rewrite length_app, length_flat_map.
    assert (Hp : list_sum
                   (map (fun x => length (l7policy_plan st x)) (l7policies l))
                 = list_sum (map l7policy_nodes (l7policies l))).
    { f_equal. apply map_ext. intros p. apply l7policy_plan_size. }
    rewrite Hp.
    destruct (default_pool l) as [pool|];
      [rewrite (proj1 (pool_plan_size st pool))|]; simpl; lia.
  - constructor; [eexists _, _; reflexivity|].
    apply Forall_app. split.
    + apply Forall_flat_map_all. intros p. apply l7policy_plan_size.
    + destruct (default_pool l) as [pool|];
        [apply pool_plan_size | constructor].
Qed.

Lemma lb_plan_size (st : status) (id : string) (lb : LoadBalancer) :
  length (lb_plan st id lb) = lb_nodes lb
  /\ Forall (sets_status st) (lb_plan st id lb).
Proof.
  unfold lb_plan, lb_nodes. split.
  - rewrite length_app, length_flat_map.
    assert (Hl : list_sum
                   (map (fun x => length (listener_plan st x)) (listeners lb))
                 = list_sum (map listener_nodes (listeners lb))).
    { f_equal. apply map_ext. intros l. apply listener_plan_size. }
    rewrite Hl. cbn [length]. lia.
  - apply Forall_app. split.
    + apply Forall_flat_map_all. intros l. apply listener_plan_size.
    + repeat constructor. eexists _, _; reflexivity.
Qed.

Lemma issue_outcome_made (cs : list call) (d : DB) :
  let '(r, _, made) := issue_outcome cs d in
  (exists rest, cs = made ++ rest) /\ (r = Ok tt -> made = cs).
Proof.
  revert d. induction cs as [|c cs IH]; intros d; simpl.
  - split; [exists []; reflexivity | reflexivity].
  - destruct (repo c d) as [[a|e] d1].
    + specialize (IH d1). destruct (issue_outcome cs d1) as [[r d2] made].
      destruct IH as [[rest Hr] Hok]. split.
      * exists rest. simpl. rewrite <- Hr. reflexivity.
      * intros E. rewrite (Hok E). reflexivity.
    + split; [exists cs; reflexivity | discriminate].
Qed.

Lemma members_rows (st : status) (ms : list Member) :
  flat_map (member_plan st) ms
  = map (mark_row st) (map (fun m => (member_repo, member_id_of m)) ms).
Proof. induction ms as [|m ms IH]; simpl; [|rewrite IH]; reflexivity. Qed.

Lemma l7rules_rows (st : status) (rs : list L7Rule) :
  flat_map (l7rule_plan st) rs
  = map (mark_row st) (map (fun r => (l7rule_repo, l7rule_id_of r)) rs).
Proof. induction rs as [|r rs IH]; simpl; [|rewrite IH]; reflexivity. Qed.

Lemma pools_rows (st : status) (qs : list Pool) :
  flat_map (pool_plan st) qs
  ≡ₚ map (mark_row st) (map (fun q => (pool_repo, pool_id_of q)) qs)
     ++ map (mark_row st)
          (map (fun h => (health_mon_repo, hm_id_of h))
             (flat_map (fun q => option_list (health_monitor q)) qs))
     ++ map (mark_row st)
          (map (fun m => (member_repo, member_id_of m))
             (flat_map members qs)).
Proof.
  induction qs as [|q qs IH]; [reflexivity|].
  cbn [flat_map map]. rewrite IH. unfold pool_plan.
  rewrite members_rows, !map_app.
  destruct (health_monitor q) as [h|]; cbn [option_list app map hm_plan];
    unfold mark_row at 1 3; cbn [fst snd]; solve_Permutation.
Qed.

Lemma l7policies_rows (st : status) (ps : list L7Policy) :
  flat_map (l7policy_plan st) ps
  ≡ₚ map (mark_row st) (map (fun p => (l7policy_repo, l7policy_id_of p)) ps)
     ++ map (mark_row st)
          (map (fun r => (l7rule_repo, l7rule_id_of r))
             (flat_map l7rules ps))
     ++ flat_map (pool_plan st)
          (flat_map (fun p => option_list (redirect_pool p)) ps).
Proof.
  induction ps as [|p ps IH]; [reflexivity|].
  cbn [flat_map map]. rewrite IH. unfold l7policy_plan.
  rewrite l7rules_rows, !map_app, flat_map_app.
  destruct (redirect_pool p) as [q|]; cbn [option_list app flat_map];
    rewrite ?app_nil_r; unfold mark_row at 1; cbn [fst snd];
    solve_Permutation.
Qed.

Lemma listeners_rows (st : status) (ls : list Listener) :
  flat_map (listener_plan st) ls
  ≡ₚ map (mark_row st) (map (fun l => (listener_repo, listener_id_of l)) ls)
     ++ flat_map (l7policy_plan st) (flat_map l7policies ls)
     ++ flat_map (pool_plan st)
          (flat_map (fun l => option_list (default_pool l)) ls).
Proof.
  induction ls as [|l ls IH]; [reflexivity|].
  cbn [flat_map map]. rewrite IH. unfold listener_plan.
  rewrite !flat_map_app.
  destruct (default_pool l) as [q|]; cbn [option_list app flat_map];
    rewrite ?app_nil_r; unfold mark_row at 1; cbn [fst snd];
    solve_Permutation.
Qed.

(** The plan of the walk holds the update of every row of the stored tree,
    once for each time the row is reached, and nothing else. *)
Lemma lb_plan_rows (st : status) (id : string) (lb : LoadBalancer) :
  lb_plan st id lb ≡ₚ map (mark_row st) (lb_rows id lb).
Proof.
  unfold lb_plan, lb_rows, lb_pools, lb_l7policies.
  rewrite listeners_rows, l7policies_rows.
  cbn [map]. rewrite !map_app, !flat_map_app.
  rewrite (pools_rows st
             (flat_map (fun l => option_list (default_pool l)) (listeners lb))).
  rewrite (pools_rows st
             (flat_map (fun p => option_list (redirect_pool p))
                (flat_map l7policies (listeners lb)))).
  rewrite !map_app. unfold mark_row at 1. cbn [fst snd].
  solve_Permutation.
Qed.

(** X10.  With the load balancer found, the forward cascading walk
    ([MarkLBActiveInDB.execute] with [mark_subobjects]) makes, after the
    read, the calls that issuing its plan comes to, and these are updates
    of the provisioning status to ACTIVE of rows of the stored tree
    (the load balancer, its listeners, their L7 policies and rules, the
    pools, their health monitors and members), no row more often than the
    tree reaches it.  When the walk returns normally every row of the tree
    has been updated, once for each time the tree reaches it, which makes
    as many updates as the tree has nodes. *)
Theorem cascading_walk_updates_every_node (loadbalancer : dict)
    (db_lb : LoadBalancer) (w : world) :
  fst (repo (Get loadbalancer_repo (LOADBALANCER_ID loadbalancer)) (store w))
  = Ok (Some db_lb) ->
  let lb_id := LOADBALANCER_ID loadbalancer in
  let rows := map (mark_row ACTIVE) (lb_rows lb_id db_lb) in
  let '(r, d, made) := issue_outcome (lb_plan ACTIVE lb_id db_lb) (store w) in
  MarkLBActiveInDB_execute true loadbalancer w
  = (r, after_calls (Get loadbalancer_repo lb_id :: made) d w)
  /\ (exists rest, made ++ rest ≡ₚ rows)
  /\ Forall (sets_status ACTIVE) made
  /\ length made <= lb_nodes db_lb
  /\ (r = Ok tt -> made ≡ₚ rows /\ length made = lb_nodes db_lb).
Proof.
  intros Hget. cbv zeta.
  pose proof (MarkLBActiveInDB_execute_exact loadbalancer db_lb w Hget) as E.
  cbv zeta in E.
  set (lb_id := LOADBALANCER_ID loadbalancer) in *.
  pose proof (issue_outcome_made (lb_plan ACTIVE lb_id db_lb) (store w)) as Hm.
  destruct (issue_outcome (lb_plan ACTIVE lb_id db_lb) (store w))
    as [[r d] made].
  destruct Hm as [[rest Hrest] Hok].
  destruct (lb_plan_size ACTIVE lb_id db_lb) as [Hlen Hall].
  pose proof (lb_plan_rows ACTIVE lb_id db_lb) as Hp.
  rewrite Hrest in Hlen, Hall, Hp. rewrite length_app in Hlen.
  apply Forall_app in Hall. destruct Hall as [Hmade _].
  split; [exact E|]. split; [exists rest; exact Hp|].
  split; [exact Hmade|]. split; [lia|].
  intros Hr. specialize (Hok Hr). rewrite Hrest in Hok.
  assert (rest = []) as ->.
  { apply (f_equal (@length call)) in Hok. rewrite length_app in Hok.
    destruct rest; [reflexivity | simpl in Hok; lia]. }
  rewrite app_nil_r in Hp. simpl in Hlen. split; [exact Hp | lia].
Qed.
(** ** Compensations of the update tasks *)

(** X11.  The [revert] of [UpdateHealthMonInDB], [UpdateMemberInDB],
    [UpdateL7PolicyInDB], [UpdateL7RuleInDB] and [MarkAmphoraReadyInDB]
    returns normally whatever the repository does, after one update through
    one fresh autocommit session.  [UpdateL7RuleInDB.revert] does not write
    the rule: its update goes to the L7 policy repository, for the id of
    the rule's policy. *)
Theorem update_reverts_mark_error (health_mon member l7policy l7rule
    amphora : dict) (result : task_result unit) (w : world) :
  let marked (m : M unit) (c : call) := m w = (Ok tt, after_call c w) in
  marked (UpdateHealthMonInDB_revert health_mon result)
    (Update health_mon_repo (HEALTHMONITOR_ID health_mon)
       [provisioning_status ERROR])
  /\ marked (UpdateMemberInDB_revert member result)
       (Update member_repo (MEMBER_ID member) [provisioning_status ERROR])
  /\ marked (UpdateL7PolicyInDB_revert l7policy result)
       (Update l7policy_repo (L7POLICY_ID l7policy)
          [provisioning_status ERROR])
  /\ marked (UpdateL7RuleInDB_revert l7rule result)
       (Update l7policy_repo (L7POLICY_ID l7rule)
          [provisioning_status ERROR])
  /\ marked (MarkAmphoraReadyInDB_revert amphora result)
       (Update amphora_repo (ID amphora)
          [amp_status ERROR; compute_id (COMPUTE_ID amphora);
           lb_network_ip (LB_NETWORK_IP amphora)]).
Proof.
  cbv zeta. unfold after_call.
  repeat split.
  all: unfold UpdateHealthMonInDB_revert, UpdateMemberInDB_revert,
    UpdateL7PolicyInDB_revert, UpdateL7RuleInDB_revert,
    MarkAmphoraReadyInDB_revert; unfold_monad; simpl.
  all: destruct (repo _ _) as [[[]|e] d]; reflexivity.
Qed.

(** ** The load balancer with its listeners *)

(** X12.  [MarkLBAndListenersActiveInDB.execute] updates the load balancer
    first (the one of [loadbalancer_id], or of the first listener when no
    id is given), then calls [prov_status_active_if_not_error] for the
    listeners in the order given, each call through a session of its own,
    and makes no other call: it never writes a listener's row itself.  The
    result, the store and the trace are those of issuing these calls one
    by one, so the first call that raises is the last one made and its
    exception is the result.  With no id and no listener nothing is
    called. *)
Theorem MarkLBAndListenersActiveInDB_execute_order
    (loadbalancer_id : option string) (listeners : list dict) (w : world) :
  (let '(r, d, made) :=
     issue_outcome (lb_and_listeners_plan loadbalancer_id listeners)
       (store w) in
   MarkLBAndListenersActiveInDB_execute loadbalancer_id listeners w
   = (r, after_calls made d w))
  /\ (truthy loadbalancer_id = false ->
      MarkLBAndListenersActiveInDB_execute loadbalancer_id [] w = (Ok tt, w)).
Proof.
  split.
  - rewrite lb_and_listeners_issue, issue_exact.
    destruct (issue_outcome _ (store w)) as [[r d] made]. reflexivity.
  - intros Ht. unfold MarkLBAndListenersActiveInDB_execute.
    rewrite Ht. reflexivity.
Qed.

Lemma mark_error_tolerating (r : repo_name) (id : string) (w : world) :
  try_except
    (get_session true ≫= fun s =>
       repo_update r s id [provisioning_status ERROR])
    (fun _ => ret tt) w
  = issue_tolerating any_exception [Update r id [provisioning_status ERROR]] w.
Proof.
  unfold issue_tolerating, any_exception. simpl. unfold_monad. simpl.
  destruct (repo _ _) as [[[]|e] d]; reflexivity.
Qed.

(** X13.  [MarkLBAndListenersActiveInDB.revert] returns normally and
    attempts every ERROR mark, the load balancer's and each listener's,
    whatever the earlier ones did. *)
Theorem MarkLBAndListenersActiveInDB_revert_marks_all
    (loadbalancer_id : option string) (listeners : list dict)
    (result : task_result unit) (w : world) :
  exists w',
    MarkLBAndListenersActiveInDB_revert loadbalancer_id listeners result w
    = (Ok tt, w')
    /\ log w'
       = log w
         ++ trace_from (next_sid w)
              (lb_and_listeners_error_plan loadbalancer_id listeners).
Proof.
  assert (E : MarkLBAndListenersActiveInDB_revert loadbalancer_id listeners
                result w
              = issue_tolerating any_exception
                  (lb_and_listeners_error_plan loadbalancer_id listeners) w).
  { unfold MarkLBAndListenersActiveInDB_revert, lb_and_listeners_error_plan.
    cbv zeta. rewrite issue_tolerating_app. apply bind_ext.
    - destruct (truthy (if truthy loadbalancer_id then _ else _));
        [apply mark_error_tolerating | reflexivity].
    - intros _ w1. apply for_each_issue_tolerating.
      intros x w2. unfold mark_listener_prov_status_error.
      unfold any_exception. unfold_monad. simpl.
      destruct (repo _ _) as [[[]|e] d]; reflexivity. }
  rewrite E.
  destruct (issue_tolerating any_exception
              (lb_and_listeners_error_plan loadbalancer_id listeners) w)
    as [r w'] eqn:Ei.
  pose proof (spec_issue_tolerating _ _ _ _ _ Ei) as (made & Hl & _ & Hm).
  destruct r as [[]|e].
  - exists w'. split; [reflexivity|]. rewrite Hl, Hm. reflexivity.
  - destruct Hm as [Ht _]. discriminate Ht.
Qed.

(** ** The health monitor of a pool that is not there *)

(** X14.  When the pool is not found, [DeleteHealthMonitorInDBByPool]'s
    [execute] and [revert] both raise on the attribute access after the
    read alone: no delete and no update is made, and the store is as
    before. *)
Theorem DeleteHealthMonitorInDBByPool_absent_pool (pool_id : string)
    (result : task_result unit) (w : world) :
  fst (repo (Get pool_repo pool_id) (store w)) = Ok None ->
  let w1 := after_call (Get pool_repo pool_id) w in
  DeleteHealthMonitorInDBByPool_execute pool_id w = (Raise AttributeError, w1)
  /\ DeleteHealthMonitorInDBByPool_revert pool_id result w
     = (Raise AttributeError, w1)
  /\ store w1 = store w.
Proof.
  intros Hget. cbv zeta. unfold after_call.
  pose proof (get_readonly pool_repo pool_id (store w)) as Hro.
  unfold DeleteHealthMonitorInDBByPool_execute,
    DeleteHealthMonitorInDBByPool_revert.
  unfold_monad. simpl.
  destruct (repo (Get pool_repo pool_id) (store w)) as [o d].
  simpl in *. subst o d. repeat split.
Qed.


End FurtherProperties.

(** * The tasks on a stored load balancer *)

Import Ref Example.

Local Open Scope string_scope.

(** C1 as stated fails: DeleteHealthMonitorInDB.revert, handed the failure
    marker, updates the health monitor all the same, and its status changes
    from PENDING_DELETE to ERROR. *)
Lemma revert_ignores_failure_marker :
  let rc := Revert_DeleteHealthMonitorInDB inputs (Failure (OtherError 7)) in
  let w' := snd (run_task (run_revert rc) stored) in
  given_failure rc = true
  /\ calls_of (log w')
     = [Update health_mon_repo "hm-1" [provisioning_status ERROR]]
  /\ prov_status stored health_mon_repo "hm-1" = Some (Some PENDING_DELETE)
  /\ prov_status (store w') health_mon_repo "hm-1" = Some (Some ERROR).
Proof. vm_compute. repeat split. Qed.

Lemma revert_after_own_failure_is_noop_witness :
  let rc :=
    Revert_DecrementPoolQuota "project-1" {| HM := 1; member := 3 |}
      (Failure (OtherError 7)) in
  takes_result rc = true /\ given_failure rc = true
  /\ run_task (run_revert rc) stored = (Ok tt, initial stored).
Proof.
  cbv zeta. split; [reflexivity|]. split; [reflexivity|].
  apply (@revert_after_own_failure_is_noop repository
           (Revert_DecrementPoolQuota "project-1" {| HM := 1; member := 3 |}
              (Failure (OtherError 7)))
           (initial stored) eq_refl).
  reflexivity.
Defined.

(** C2, at the failing input.  On a store that refuses the update of the
    health monitor, DeleteHealthMonitorInDB.revert raises; the member's
    delete task, whose [revert] makes the same update inside a
    [try/except], does not. *)
Theorem DeleteHealthMonitorInDB_revert_raises :
  let failing :=
    refusing [Update health_mon_repo "hm-1" [provisioning_status ERROR]]
      stored in
  fst (run_task (DeleteHealthMonitorInDB_revert inputs (Result tt)) failing)
  = Raise (OtherError 0)
  /\ fst (run_task (DeleteMemberInDB_revert inputs (Result tt))
            (refusing
               [Update member_repo "m-1" [provisioning_status ERROR]] stored))
     = Ok tt.
Proof. vm_compute. split; reflexivity. Qed.

(** C4 as stated fails.  When the update of L7 policy po-1 is refused,
    [execute] raises after three calls, leaving pool-1, listener li-2 and
    the load balancer itself unmarked; and [revert], though it goes on to
    li-2 and the load balancer, skips the rest of li-1's subtree: pool-1 is
    never marked ERROR. *)
Lemma cascading_walk_aborts :
  let refuse st :=
    refusing [Update l7policy_repo "po-1" [provisioning_status st]] stored in
  let forward :=
    run_task (MarkLBActiveInDB_execute true inputs) (refuse ACTIVE) in
  let backward :=
    run_task (MarkLBActiveInDB_revert true inputs (Result tt))
      (refuse ERROR) in
  (fst forward = Raise (OtherError 0)
   /\ calls_of (log (snd forward))
      = [Get loadbalancer_repo "lb-1";
         Update listener_repo "li-1" [provisioning_status ACTIVE];
         Update l7policy_repo "po-1" [provisioning_status ACTIVE]]
   /\ prov_status (store (snd forward)) pool_repo "pool-1"
      = Some (Some PENDING_UPDATE)
   /\ prov_status (store (snd forward)) loadbalancer_repo "lb-1"
      = Some (Some PENDING_UPDATE))
  /\ (fst backward = Ok tt
      /\ calls_of (log (snd backward))
         = [Get loadbalancer_repo "lb-1";
            Update listener_repo "li-1" [provisioning_status ERROR];
            Update l7policy_repo "po-1" [provisioning_status ERROR];
            Update listener_repo "li-2" [provisioning_status ERROR];
            Update loadbalancer_repo "lb-1" [provisioning_status ERROR]]
      /\ prov_status (store (snd backward)) pool_repo "pool-1"
         = Some (Some PENDING_UPDATE)).
Proof. vm_compute. repeat split. Qed.

Lemma cascading_walk_witness :
  let refuse st :=
    refusing [Update l7policy_repo "po-1" [provisioning_status st]] stored in
  let forward :=
    run_task (MarkLBActiveInDB_execute true inputs) (refuse ACTIVE) in
  let backward :=
    run_task (MarkLBActiveInDB_revert true inputs (Result tt))
      (refuse ERROR) in
  fst (run (Get loadbalancer_repo "lb-1") (refuse ACTIVE)) = Ok (Some lb_1)
  /\ fst (run (Get loadbalancer_repo "lb-1") (refuse ERROR)) = Ok (Some lb_1)
  /\ fst forward = Raise (OtherError 0)
  /\ calls_of (log (snd forward))
     = [Get loadbalancer_repo "lb-1";
        Update listener_repo "li-1" [provisioning_status ACTIVE];
        Update l7policy_repo "po-1" [provisioning_status ACTIVE]]
  /\ fst backward = Ok tt
  /\ calls_of (log (snd backward))
     = [Get loadbalancer_repo "lb-1";
        Update listener_repo "li-1" [provisioning_status ERROR];
        Update l7policy_repo "po-1" [provisioning_status ERROR];
        Update listener_repo "li-2" [provisioning_status ERROR];
        Update loadbalancer_repo "lb-1" [provisioning_status ERROR]].
Proof.
  cbv zeta. split; [reflexivity|]. split; [reflexivity|].
  set (forth :=
         refusing [Update l7policy_repo "po-1" [provisioning_status ACTIVE]]
           stored).
  set (back :=
         refusing [Update l7policy_repo "po-1" [provisioning_status ERROR]]
           stored).
  destruct
    (@cascading_walk repository inputs lb_1 (Result tt) (initial forth)
       eq_refl) as [E _].
  destruct
    (@cascading_walk repository inputs lb_1 (Result tt) (initial back)
       eq_refl) as [_ E'].
  cbv zeta in E, E'.
  assert (Hr : fst (fst (issue_outcome
                           (lb_plan ACTIVE (LOADBALANCER_ID inputs) lb_1)
                           (store (initial forth))))
               = Raise (OtherError 0)) by (vm_compute; reflexivity).
  assert (Hm : snd (issue_outcome
                      (lb_plan ACTIVE (LOADBALANCER_ID inputs) lb_1)
                      (store (initial forth)))
               = [Update listener_repo "li-1" [provisioning_status ACTIVE];
                  Update l7policy_repo "po-1" [provisioning_status ACTIVE]])
    by (vm_compute; reflexivity).
  assert (Hm' : snd (revert_listeners_outcome (listeners lb_1)
                       (store (initial back)))
                = [Update listener_repo "li-1" [provisioning_status ERROR];
                   Update l7policy_repo "po-1" [provisioning_status ERROR];
                   Update listener_repo "li-2" [provisioning_status ERROR]])
    by (vm_compute; reflexivity).
  destruct (issue_outcome (lb_plan ACTIVE (LOADBALANCER_ID inputs) lb_1)
              (store (initial forth))) as [[r d] made].
  destruct (revert_listeners_outcome (listeners lb_1) (store (initial back)))
    as [d' made'].
  simpl in Hr, Hm, Hm'. subst r made made'.
  unfold run_task. rewrite E, E'. repeat split.
Defined.

(** C5 as stated fails: marking the enabled member m-1 ACTIVE writes its
    provisioning status only; no operating status is written. *)
Lemma MarkMemberActiveInDB_leaves_operating_status :
  let w' := snd (run_task (MarkMemberActiveInDB_execute inputs) stored) in
  get_member stored "m-1"
  = Some {| member_id_of := "m-1"; member_enabled := true |}
  /\ calls_of (log w')
     = [Update member_repo "m-1" [provisioning_status ACTIVE]]
  /\ prov_status (store w') member_repo "m-1" = Some (Some ACTIVE)
  /\ op_status (store w') member_repo "m-1" = Some None.
Proof. vm_compute. repeat split. Qed.

Lemma mark_active_derives_operating_status_witness :
  fst (run (Get l7rule_repo "ru-1") stored)
  = Ok (Some {| l7rule_id_of := "ru-1"; l7rule_enabled := false |})
  /\ exists r w',
       run_task (MarkL7RuleActiveInDB_execute inputs) stored = (r, w')
       /\ log w'
          = trace_from 0
              [Get l7rule_repo "ru-1";
               Update l7rule_repo "ru-1"
                 [provisioning_status ACTIVE; operating_status OFFLINE]].
Proof.
  split; [reflexivity|].
  destruct
    (@mark_active_derives_operating_status repository inputs
       (initial stored))
    as (_ & _ & H & _).
  exact (H {| l7rule_id_of := "ru-1"; l7rule_enabled := false |} eq_refl).
Defined.

(** C6 as stated fails: deleting a member that is not stored raises
    NoResultFound. *)
Lemma DeleteMemberInDB_not_found_raises :
  get_member stored "m-9" = None
  /\ fst (run_task (DeleteMemberInDB_execute absent) stored)
     = Raise NoResultFound.
Proof. vm_compute. split; reflexivity. Qed.

Lemma delete_not_found_witness :
  run (Delete health_mon_repo "hm-9") stored = (Raise NoResultFound, stored)
  /\ exists w',
       run_task (DeleteHealthMonitorInDB_execute absent) stored = (Ok tt, w')
       /\ store w' = stored.
Proof.
  split; [reflexivity|].
  destruct (@delete_not_found repository (initial stored)) as (H & _).
  destruct (H absent eq_refl) as (w' & E & Hs & _).
  exists w'. split; [exact E | exact Hs].
Defined.

Lemma quota_decrement_failure_rolls_back_witness :
  let qc := Execute_DecrementLoadBalancerQuota "project-9" in
  run (own_decrement qc) stored = (Raise (OtherError 1), stored)
  /\ exists w',
       run_task (run_quota_execute qc) stored = (Raise (OtherError 1), w')
       /\ store w' = stored.
Proof.
  cbv zeta. split; [reflexivity|].
  destruct
    (@quota_decrement_failure_rolls_back repository
       (Execute_DecrementLoadBalancerQuota "project-9") (initial stored))
    as (H1 & H2).
  destruct (H1 (OtherError 1) stored eq_refl) as (w' & E & _).
  exists w'. split; [exact E|].
  destruct (H2 _ _ E) as (Hs & _). exact Hs.
Defined.

(** The pool-delete scenario on the stored project: 2 pools, 1 health
    monitor and 5 members in use before, 1, 0 and 2 after. *)
Example pool_delete_counts :
  let w' :=
    snd (run_task
           (DecrementPoolQuota_execute "project-1"
              {| HM := 1; member := 3 |}) stored) in
  (counter stored "project-1" KPool,
   counter stored "project-1" KHealthMonitor,
   counter stored "project-1" KMember) = (2, 1, 5)%Z
  /\ (counter (store w') "project-1" KPool,
      counter (store w') "project-1" KHealthMonitor,
      counter (store w') "project-1" KMember) = (1, 0, 2)%Z.
Proof. vm_compute. split; reflexivity. Qed.

(** A member count above what is in use: the member decrement fails and
    neither the pool's nor the health monitor's decrement is kept. *)
Example pool_delete_rolled_back :
  let r :=
    run_task
      (DecrementPoolQuota_execute "project-1" {| HM := 1; member := 7 |})
      stored in
  fst r = Raise (OtherError 1)
  /\ (counter (store (snd r)) "project-1" KPool,
      counter (store (snd r)) "project-1" KHealthMonitor,
      counter (store (snd r)) "project-1" KMember) = (2, 1, 5)%Z.
Proof. vm_compute. split; reflexivity. Qed.

(** Reverting the MASTER role on the stored amphora clears both columns. *)
Example role_revert_on_amphora :
  let w' :=
    snd (run_task
           (@MarkAmphoraMasterInDB_revert repository (Result tt) inputs)
           stored) in
  (role_in <$> (columns <$> rows stored !! key amphora_repo "amp-1"),
   vrrp_priority_in <$> (columns <$> rows stored !! key amphora_repo "amp-1"))
  = (Some (Some ROLE_MASTER), Some (Some 100%Z))
  /\ (role_in <$> (columns <$> rows (store w') !! key amphora_repo "amp-1"),
      vrrp_priority_in
        <$> (columns <$> rows (store w') !! key amphora_repo "amp-1"))
     = (Some None, Some None).
Proof. vm_compute. split; reflexivity. Qed.

(** * Further properties on the stored load balancer *)

Lemma single_decrement_is_a_transaction_witness :
  let qc := Execute_DecrementMemberQuota "project-1" in
  let w := initial stored in
  let ls := next_session false w in
  single_decrement qc = true
  /\ exists w',
       match transact [own_decrement qc] (working ls w) with
       | Ok d =>
           run_quota_execute qc w = (Ok tt, w') /\ store w' = d
           /\ log w' = (log w ++ [ECall ls (own_decrement qc); ECommit ls])%list
       | Raise e =>
           run_quota_execute qc w = (Raise e, w') /\ store w' = store w
       end.
Proof.
  cbv zeta. split; [reflexivity|].
  apply (single_decrement_is_a_transaction
           (Execute_DecrementMemberQuota "project-1") (initial stored)).
  reflexivity.
Defined.

Lemma cascading_walk_updates_every_node_witness :
  fst (run (Get loadbalancer_repo "lb-1") stored) = Ok (Some lb_1)
  /\ lb_nodes lb_1 = 9
  /\ fst (run_task (MarkLBActiveInDB_execute true inputs) stored) = Ok tt
  /\ calls_of (log (snd (run_task (MarkLBActiveInDB_execute true inputs)
                           stored)))
     ≡ₚ Get loadbalancer_repo "lb-1"
        :: map (mark_row ACTIVE) (lb_rows "lb-1" lb_1).
Proof.
  split; [reflexivity|]. split; [reflexivity|].
  pose proof
    (@cascading_walk_updates_every_node repository inputs lb_1
       (initial stored) eq_refl) as H.
  cbv zeta in H.
  assert (Hr : fst (fst (issue_outcome
                           (lb_plan ACTIVE (LOADBALANCER_ID inputs) lb_1)
                           (store (initial stored)))) = Ok tt)
    by (vm_compute; reflexivity).
  destruct (issue_outcome (lb_plan ACTIVE (LOADBALANCER_ID inputs) lb_1)
              (store (initial stored))) as [[r d] made].
  simpl in Hr. destruct H as (E & _ & _ & _ & Hok).
  destruct (Hok Hr) as [Hp _].
  unfold run_task. rewrite E. simpl. split; [exact Hr|].
  rewrite calls_of_trace_from. constructor. exact Hp.
Defined.

Lemma DeleteHealthMonitorInDBByPool_absent_pool_witness :
  fst (run (Get pool_repo "pool-9") stored) = Ok None
  /\ fst (run_task (DeleteHealthMonitorInDBByPool_execute "pool-9") stored)
     = Raise AttributeError
  /\ fst (run_task
            (DeleteHealthMonitorInDBByPool_revert "pool-9" (Result tt))
            stored)
     = Raise AttributeError.
Proof.
  split; [reflexivity|].
  destruct
    (DeleteHealthMonitorInDBByPool_absent_pool "pool-9" (Result tt)
       (initial stored))
    as (E & E' & _); [reflexivity|].
  unfold run_task. rewrite E, E'. split; reflexivity.
Defined.

Lemma guarded_revert_never_raises_witness :
  let rc := Revert_DeleteMemberInDB inputs (Result tt) in
  compensation_guarded rc = true
  /\ exists w', run_task (run_revert rc) stored = (Ok tt, w').
Proof.
  cbv zeta. split; [reflexivity|].
  apply (guarded_revert_never_raises
           (Revert_DeleteMemberInDB inputs (Result tt)) eq_refl
           (initial stored)).
Defined.

(** Reverting an update of the stored rule ru-1 leaves the rule as it was
    and puts its policy po-1 in ERROR. *)
Example UpdateL7RuleInDB_revert_on_stored :
  let w' :=
    snd (run_task (UpdateL7RuleInDB_revert inputs (Result tt)) stored) in
  (prov_status stored l7rule_repo "ru-1",
   prov_status stored l7policy_repo "po-1")
  = (Some (Some PENDING_UPDATE), Some (Some PENDING_UPDATE))
  /\ (prov_status (store w') l7rule_repo "ru-1",
      prov_status (store w') l7policy_repo "po-1")
     = (Some (Some PENDING_UPDATE), Some (Some ERROR)).
Proof. vm_compute. split; reflexivity. Qed.
